(** * Application records of userbase-server: a shallow embedding of
    [src/userbase-server/app.js]

    The module keeps "application" records in a DynamoDB table keyed by
    (admin-id, app-name), retires them into a second table of permanently
    deleted applications, and lists or counts the user records that refer to
    an application through the app-id index.

    Layout of the development:
    - JavaScript strings and the two string primitives the module uses
      ([trim], [includes]);
    - items, condition expressions and the document store (the DynamoDB
      client the module calls, with its conditional writes, its two-item
      transaction and its paginated queries);
    - a state-and-exception monad for the [async] functions, over a world
      made of the store, the trace of store calls and the logger's output;
    - the functions of [app.js], in source order and under their names;
    - the properties of the module. *)

From Stdlib Require Import Ascii Lia.
From stdpp Require Import gmap strings list fin_maps.

(** ** JavaScript strings *)

Module JsString.

(** Strings are sequences of 8-bit code units.  ECMAScript's white space
    and line terminators in that range: TAB, LF, VT, FF, CR, SPACE and
    NO-BREAK SPACE. *)
Definition isWhiteSpace (c : ascii) : bool :=
  let n := nat_of_ascii c in
  ((9 <=? n)%nat && (n <=? 13)%nat) || (n =? 32)%nat || (n =? 160)%nat.

Fixpoint trimStart (s : string) : string :=
  match s with
  | EmptyString => EmptyString
  | String c s' => if isWhiteSpace c then trimStart s' else s
  end.

(** [trimEnd] drops the white space that ends the string: a white-space
    character is kept only when something is left after it. *)
Fixpoint trimEnd (s : string) : string :=
  match s with
  | EmptyString => EmptyString
  | String c s' =>
      match trimEnd s' with
      | EmptyString => if isWhiteSpace c then EmptyString else String c EmptyString
      | t => String c t
      end
  end.

(** [String.prototype.trim]. *)
Definition trim (s : string) : string := trimEnd (trimStart s).

(** [String.prototype.includes]. *)
Fixpoint includes (s pat : string) : bool :=
  String.prefix pat s ||
  match s with
  | EmptyString => false
  | String _ s' => includes s' pat
  end.

(** Truthiness of a string value: only the empty string is falsy. *)
Definition truthy (s : string) : bool :=
  match s with
  | EmptyString => false
  | String _ _ => true
  end.

Fixpoint join (sep : string) (l : list string) : string :=
  match l with
  | [] => ""
  | [x] => x
  | x :: l' => x +:+ sep +:+ join sep l'
  end.

Fixpoint allWhiteSpace (s : string) : bool :=
  match s with
  | EmptyString => true
  | String c s' => isWhiteSpace c && allWhiteSpace s'
  end.

End JsString.

(** ** Items and condition expressions *)

(** An item is a JavaScript object whose attributes are strings. *)
Abbreviation item := (gmap string string).

(** The condition and filter expressions the module writes, with the
    [ExpressionAttributeNames] and [ExpressionAttributeValues] placeholders
    replaced by what they stand for. *)
Inductive condition : Type :=
| attribute_exists (a : string)
| attribute_not_exists (a : string)
| attribute_equals (a v : string)
| cond_and (c1 c2 : condition).

Definition attribute (it : option item) (a : string) : option string :=
  match it with
  | Some i => i !! a
  | None => None
  end.

(** A condition is evaluated on the item stored at the key, an absent item
    having no attribute. *)
Fixpoint evalCondition (c : condition) (it : option item) : bool :=
  match c with
  | attribute_exists a => bool_decide (is_Some (attribute it a))
  | attribute_not_exists a => bool_decide (attribute it a = None)
  | attribute_equals a v => bool_decide (attribute it a = Some v)
  | cond_and c1 c2 => evalCondition c1 it && evalCondition c2 it
  end.

Definition evalOptCondition (c : option condition) (it : option item) : bool :=
  match c with
  | Some c => evalCondition c it
  | None => true
  end.

(** ** The document store

    The store is the module's external collaborator (the DynamoDB document
    client obtained from [connection.ddbClient()]).  The model keeps what the
    module relies on: conditional single-item writes, the all-or-nothing
    transaction, and queries answered one page at a time. *)

(** The table and index names of [setup] ([./setup] is outside this file):
    only their being distinct names matters here. *)
Inductive tableName : Type := appsTableName | deletedAppsTableName | usersTableName.
Inductive indexName : Type := appIdIndex.
Inductive selectMode : Type := ALL_ATTRIBUTES | COUNT.

#[global] Instance tableName_eq_dec : EqDecision tableName.
Proof. solve_decision. Defined.

(** A table is the sequence of its items, in the order the store
    enumerates them.  [pageCap] is the number of items the store examines
    for one response when the request sets no smaller [Limit] (the store's
    bound on the size of a response). *)
Record database : Type := Database {
  appsTable : list item;
  deletedAppsTable : list item;
  usersTable : list item;
  pageCap : positive
}.

(** The applications table is keyed by (admin-id, app-name), the table of
    permanently deleted applications by app-id.  The users table is only
    queried here, through its app-id index, and never addressed by primary
    key: the model gives it no key schema. *)
Definition keySchema (t : tableName) : option (list string) :=
  match t with
  | appsTableName => Some ["admin-id"; "app-name"]
  | deletedAppsTableName => Some ["app-id"]
  | usersTableName => None
  end.

(** A key attribute of an item (or of a [Key] object).  The store accepts
    no key attribute that is missing or the empty string. *)
Definition keyAttribute (k : item) (a : string) : option string :=
  match k !! a with
  | Some v => if JsString.truthy v then Some v else None
  | None => None
  end.

(** The primary key of an item (or of a [Key] object): the values of its
    key attributes, when the store accepts them all. *)
Definition keyOf (t : tableName) (k : item) : option (list string) :=
  match keySchema t with
  | Some schema => mapM (keyAttribute k) schema
  | None => None
  end.

Definition sameKey (t : tableName) (key : list string) (it : item) : bool :=
  bool_decide (keyOf t it = Some key).

Definition tableItems (db : database) (t : tableName) : list item :=
  match t with
  | appsTableName => appsTable db
  | deletedAppsTableName => deletedAppsTable db
  | usersTableName => usersTable db
  end.

Definition setTableItems (db : database) (t : tableName) (l : list item) : database :=
  match t with
  | appsTableName => Database l (deletedAppsTable db) (usersTable db) (pageCap db)
  | deletedAppsTableName => Database (appsTable db) l (usersTable db) (pageCap db)
  | usersTableName => Database (appsTable db) (deletedAppsTable db) l (pageCap db)
  end.

(** The item stored at a key. *)
Definition readKey (db : database) (t : tableName) (key : list string) : option item :=
  List.find (sameKey t key) (tableItems db t).

(** Store ([Some]) or remove ([None]) the item at a key: a stored item takes
    the place of the one it replaces, or the end of the table. *)
Definition writeKey (db : database) (t : tableName) (key : list string)
    (v : option item) : database :=
  let rows := tableItems db t in
  setTableItems db t
    match v with
    | None => List.filter (fun it => negb (sameKey t key it)) rows
    | Some new =>
        if existsb (sameKey t key) rows
        then (fun it => if sameKey t key it then new else it) <$> rows
        else rows ++ [new]
    end.

(** *** Request parameters *)

Record putParams : Type := PutParams {
  put_TableName : tableName;
  put_Item : item;
  put_ConditionExpression : option condition
}.

Record getParams : Type := GetParams {
  get_TableName : tableName;
  get_Key : item
}.

(** [UpdateExpression: 'SET a = v'] is the pair [(a, v)]. *)
Record updateParams : Type := UpdateParams {
  update_TableName : tableName;
  update_Key : item;
  update_UpdateExpression : string * string;
  update_ConditionExpression : option condition
}.

Record deleteParams : Type := DeleteParams {
  delete_TableName : tableName;
  delete_Key : item;
  delete_ConditionExpression : option condition
}.

Inductive transactItem : Type :=
| Delete (p : deleteParams)
| Put (p : putParams).

Record transactParams : Type := TransactParams {
  TransactItems : list transactItem
}.

(** [KeyConditionExpression: '#k = :v'] is the pair [(k, v)].  The
    continuation token ([LastEvaluatedKey], handed back as
    [ExclusiveStartKey]) is opaque to the module; the model takes the number
    of items of the queried partition examined so far. *)
Record queryParams : Type := QueryParams {
  query_TableName : tableName;
  query_IndexName : option indexName;
  query_KeyConditionExpression : string * string;
  query_FilterExpression : option condition;
  query_Select : option selectMode;
  query_Limit : option nat;
  query_ExclusiveStartKey : option nat
}.

Record queryResponse : Type := QueryResponse {
  Items : list item;
  Count : nat;
  LastEvaluatedKey : option nat
}.

(** *** Errors of the store *)

Record awsError : Type := AwsError {
  aws_name : string;
  aws_message : string
}.

Definition ConditionalCheckFailedException : awsError :=
  AwsError "ConditionalCheckFailedException" "The conditional request failed".

Definition ValidationException : awsError :=
  AwsError "ValidationException"
           "The provided key element does not match the schema".

(** A cancelled transaction reports one reason per item, in the order of
    [TransactItems], inside square brackets at the end of its message. *)
Definition cancellationReason (ok : bool) : string :=
  if ok then "None" else "ConditionalCheckFailed".

Definition TransactionCanceledException (oks : list bool) : awsError :=
  AwsError "TransactionCanceledException"
    ("Transaction cancelled, please refer cancellation reasons for specific reasons ["
       +:+ JsString.join ", " (cancellationReason <$> oks) +:+ "]").

(** *** Operations *)

Module Store.

Definition get (p : getParams) (db : database) : awsError + option item :=
  let t := get_TableName p in
  match keyOf t (get_Key p) with
  | Some k => inr (readKey db t k)
  | None => inl ValidationException
  end.

Definition put (p : putParams) (db : database) : awsError + database :=
  let t := put_TableName p in
  match keyOf t (put_Item p) with
  | Some k =>
      if evalOptCondition (put_ConditionExpression p) (readKey db t k)
      then inr (writeKey db t k (Some (put_Item p)))
      else inl ConditionalCheckFailedException
  | None => inl ValidationException
  end.

(** [SET a = v] on the stored item; on an absent one the update creates
    the item from its key. *)
Definition update (p : updateParams) (db : database) : awsError + database :=
  let t := update_TableName p in
  match keyOf t (update_Key p) with
  | Some k =>
      if evalOptCondition (update_ConditionExpression p) (readKey db t k)
      then
        let old := default (update_Key p) (readKey db t k) in
        let '(a, v) := update_UpdateExpression p in
        inr (writeKey db t k (Some (<[a := v]> old)))
      else inl ConditionalCheckFailedException
  | None => inl ValidationException
  end.

Definition itemTable (it : transactItem) : tableName :=
  match it with
  | Delete p => delete_TableName p
  | Put p => put_TableName p
  end.

Definition itemKey (it : transactItem) : option (list string) :=
  match it with
  | Delete p => keyOf (delete_TableName p) (delete_Key p)
  | Put p => keyOf (put_TableName p) (put_Item p)
  end.

Definition itemCondition (it : transactItem) : option condition :=
  match it with
  | Delete p => delete_ConditionExpression p
  | Put p => put_ConditionExpression p
  end.

(** Whether the condition of a transaction item holds in [db]. *)
Definition itemCheck (db : database) (it : transactItem) : bool :=
  match itemKey it with
  | Some k => evalOptCondition (itemCondition it) (readKey db (itemTable it) k)
  | None => false
  end.

Definition itemApply (db : database) (it : transactItem) : database :=
  match it, itemKey it with
  | Delete p, Some k => writeKey db (delete_TableName p) k None
  | Put p, Some k => writeKey db (put_TableName p) k (Some (put_Item p))
  | _, None => db
  end.

(** A transaction with an item whose key the store does not accept is
    rejected as a whole.  Otherwise all conditions are checked against the
    state before the transaction, and the writes are applied only when every
    one of them holds. *)
Definition transactWrite (p : transactParams) (db : database)
  : awsError + database :=
  if forallb (fun it => bool_decide (is_Some (itemKey it))) (TransactItems p)
  then
    let oks := itemCheck db <$> TransactItems p in
    if forallb id oks
    then inr (foldl itemApply db (TransactItems p))
    else inl (TransactionCanceledException oks)
  else inl ValidationException.

(** The items a query ranges over: those of the table (or index) whose
    key attribute has the requested value. *)
Definition partition (p : queryParams) (db : database) : list item :=
  let '(k, v) := query_KeyConditionExpression p in
  List.filter (fun it => bool_decide (it !! k = Some v))
              (tableItems db (query_TableName p)).

(** The number of items one response examines. *)
Definition pageBound (p : queryParams) (db : database) : nat :=
  match query_Limit p with
  | Some l => Nat.min l (Pos.to_nat (pageCap db))
  | None => Pos.to_nat (pageCap db)
  end.

(** One page of a query.  The store examines up to [pageBound] items
    after the start key, then applies the filter: [Count] is the number of
    examined items that pass it.  A [LastEvaluatedKey] is returned when the
    examination stopped at the bound. *)
Definition query (p : queryParams) (db : database) : queryResponse :=
  let start := default 0 (query_ExclusiveStartKey p) in
  let rest := drop start (partition p db) in
  let examined := take (pageBound p db) rest in
  let matched :=
    match query_FilterExpression p with
    | Some c => List.filter (fun it => evalCondition c (Some it)) examined
    | None => examined
    end in
  {| Items := match query_Select p with
              | Some COUNT => []
              | _ => matched
              end;
     Count := length matched;
     LastEvaluatedKey :=
       if (pageBound p db <=? length rest)%nat
       then Some (start + pageBound p db)
       else None |}.

End Store.

(** ** The world of an [async] function *)

Inductive ddbCall : Type :=
| CallPut (p : putParams)
| CallGet (p : getParams)
| CallUpdate (p : updateParams)
| CallQuery (p : queryParams)
| CallTransactWrite (p : transactParams).

Inductive logLevel : Type := error | fatal.

(** The store, the calls issued to it so far (oldest first), the lines the
    logger has written (oldest first) and the reading of the clock. *)
Record world : Type := World {
  store : database;
  calls : list ddbCall;
  logs : list (logLevel * string);
  clock : string
}.

(** What a [throw] carries: an object literal [{status, data}], an error of
    the store, [new Error(message)], or a [TypeError] of the runtime. *)
Inductive exn : Type :=
| ThrownObject (status : nat) (data : string)
| ThrownAws (e : awsError)
| ThrownError (message : string)
| ThrownTypeError (message : string).

Definition exn_status (e : exn) : option nat :=
  match e with ThrownObject s _ => Some s | _ => None end.

Definition exn_data (e : exn) : option string :=
  match e with ThrownObject _ d => Some d | _ => None end.

Definition exn_name (e : exn) : option string :=
  match e with
  | ThrownObject _ _ => None
  | ThrownAws a => Some (aws_name a)
  | ThrownError _ => Some "Error"
  | ThrownTypeError _ => Some "TypeError"
  end.

Definition exn_message (e : exn) : option string :=
  match e with
  | ThrownObject _ _ => None
  | ThrownAws a => Some (aws_message a)
  | ThrownError m => Some m
  | ThrownTypeError m => Some m
  end.

(** The text a template literal gives for [${e}]. *)
Definition exn_toString (e : exn) : string :=
  match e with
  | ThrownObject _ _ => "[object Object]"
  | ThrownAws a => aws_name a +:+ ": " +:+ aws_message a
  | ThrownError m => "Error: " +:+ m
  | ThrownTypeError m => "TypeError: " +:+ m
  end.

Inductive outcome (A : Type) : Type :=
| Returned (a : A)
| Thrown (e : exn)
| OutOfFuel.
Arguments Returned {A} a.
Arguments Thrown {A} e.
Arguments OutOfFuel {A}.

Definition js (A : Type) : Type := world -> outcome A * world.

Definition ret {A} (a : A) : js A := fun w => (Returned a, w).
Definition throw {A} (e : exn) : js A := fun w => (Thrown e, w).
Definition outOfFuel {A} : js A := fun w => (OutOfFuel, w).

Definition bind {A B} (m : js A) (k : A -> js B) : js B :=
  fun w =>
    match m w with
    | (Returned a, w') => k a w'
    | (Thrown e, w') => (Thrown e, w')
    | (OutOfFuel, w') => (OutOfFuel, w')
    end.

(** [try { body } catch (e) { handler }]. *)
Definition tryCatch {A} (body : js A) (handler : exn -> js A) : js A :=
  fun w =>
    match body w with
    | (Thrown e, w') => handler e w'
    | r => r
    end.

Notation "'let!' x ':=' m 'in' k" := (bind m (fun x => k))
  (at level 10, x name, m at level 100, k at level 200).
Notation "m ';;;' k" := (bind m (fun _ => k))
  (at level 100, k at level 200, right associativity).

(** [new Date().toISOString()]. *)
Definition Date_toISOString : js string := fun w => (Returned (clock w), w).

Module logger.
Definition log (l : logLevel) (msg : string) : js unit :=
  fun w => (Returned tt,
            World (store w) (calls w) (logs w ++ [(l, msg)]) (clock w)).
Definition error := log error.
Definition fatal := log fatal.
End logger.

(** The client returned by [connection.ddbClient()]: every call is recorded,
    then answered by the store; an error of the store is thrown. *)
Module ddbClient.

Definition record (c : ddbCall) (w : world) : world :=
  World (store w) (calls w ++ [c]) (logs w) (clock w).

Definition write (c : ddbCall) (op : database -> awsError + database) : js unit :=
  fun w =>
    let w := record c w in
    match op (store w) with
    | inr db' => (Returned tt, World db' (calls w) (logs w) (clock w))
    | inl e => (Thrown (ThrownAws e), w)
    end.

Definition put (p : putParams) : js unit := write (CallPut p) (Store.put p).
Definition update (p : updateParams) : js unit :=
  write (CallUpdate p) (Store.update p).
Definition transactWrite (p : transactParams) : js unit :=
  write (CallTransactWrite p) (Store.transactWrite p).

(** The response of [get]: its [Item]. *)
Definition get (p : getParams) : js (option item) :=
  fun w =>
    let w := record (CallGet p) w in
    match Store.get p (store w) with
    | inr it => (Returned it, w)
    | inl e => (Thrown (ThrownAws e), w)
    end.

Definition query (p : queryParams) : js queryResponse :=
  fun w =>
    let w := record (CallQuery p) w in
    (Returned (Store.query p (store w)), w).

End ddbClient.

(** ** Values sent to the HTTP layer *)

(** The JavaScript values the handlers build: strings, items, arrays and
    object literals. *)
#[warnings="-register-all"]
Inductive jsval : Type :=
| JUndefined
| JString (s : string)
| JItem (it : item)
| JArray (l : list jsval)
| JObject (fields : list (string * jsval)).

(** An array of items, as a query response carries them. *)
Definition itemsArray (l : list item) : list jsval := JItem <$> l.

(** [res.status(c).send(v)], [res.send(v)] and [res.end()]: the status set
    on the response ([undefined] when [e.status] is) and what was sent. *)
Record response : Type := Response {
  res_status : option nat;
  res_body : option jsval
}.

(** Modelled from the spec: the table [statusCodes] of [./statusCodes], with
    the codes of the spec's error-to-status mapping (400, 404, 409, 500) and
    the standard codes of Success and Payment Required. *)
Inductive statusName : Type :=
| Success | Bad_Request | Payment_Required | Not_Found | Conflict
| Internal_Server_Error.

Definition statusCodes (n : statusName) : nat :=
  match n with
  | Success => 200
  | Bad_Request => 400
  | Payment_Required => 402
  | Not_Found => 404
  | Conflict => 409
  | Internal_Server_Error => 500
  end.

Definition send (status : option nat) (v : jsval) : js response :=
  ret (Response status (Some v)).

(** [res.end()], and [res.send(v)] with no status set: Express answers 200. *)
Definition res_end : js response := ret (Response (Some 200) None).
Definition res_send (v : jsval) : js response := send (Some 200) v.
Definition res_status_send (n : statusName) (v : jsval) : js response :=
  send (Some (statusCodes n)) v.

(** ** Requests *)

(** [res.locals.subscription], as the payment layer resolved it. *)
Record subscription : Type := Subscription {
  cancel_at_period_end : bool;
  status : string
}.

(** [req.body], [res.locals.subscription] and [res.locals.admin]. *)
Record request : Type := Request {
  body : item;
  locals_subscription : option subscription;
  locals_admin : item
}.

(** A field of an object, the empty string standing for [undefined].  The
    two are told apart neither by the tests of the module, which are tests
    of truthiness, nor by the store, which rejects a key attribute that is
    missing and one that is the empty string alike. *)
Definition field (o : item) (a : string) : string := default "" (o !! a).

(** [!subscription || subscription.cancel_at_period_end ||
    subscription.status !== 'active'] *)
Definition subscriptionLapsed (s : option subscription) : bool :=
  match s with
  | None => true
  | Some s => cancel_at_period_end s || negb (bool_decide (status s = "active"))
  end.

(** ** The functions of [app.js] *)

Import JsString.

Definition jsOfOption (o : option string) : jsval :=
  match o with
  | Some s => JString s
  | None => JUndefined
  end.

(** [async function createApp(appName, adminId, appId = uuidv4())] *)
Definition createApp (appName adminId appId : string) : js item :=
  if negb (truthy appName) || negb (truthy adminId)
  then throw (ThrownObject (statusCodes Bad_Request) "Missing required items")
  else
    tryCatch
      (let trimmedAppName := trim appName in
       if negb (truthy trimmedAppName)
       then throw (ThrownObject (statusCodes Bad_Request) "App name cannot be blank")
       else
         let! now := Date_toISOString in
         let app : item :=
           list_to_map [("admin-id", adminId);
                        ("app-name", trimmedAppName);
                        ("app-id", appId);
                        ("creation-date", now)] in
         let params :=
           {| put_TableName := appsTableName;
              put_Item := app;
              put_ConditionExpression := Some (attribute_not_exists "admin-id") |} in
         ddbClient.put params ;;;
         ret app)
      (fun e =>
         if bool_decide (exn_data e = Some "App name cannot be blank")
         then throw e
         else if bool_decide (exn_name e = Some "ConditionalCheckFailedException")
         then throw (ThrownObject (statusCodes Conflict) "App already exists")
         else
           logger.error ("Failed to create app " +:+ appName +:+ " for admin "
                           +:+ adminId +:+ " with " +:+ exn_toString e) ;;;
           throw (ThrownObject (statusCodes Internal_Server_Error)
                               "Failed to create app")).

(** [exports.createAppController]; [uuid] is the identifier [uuidv4()]
    gives for the default argument of [createApp]. *)
Definition createAppController (uuid : string) (req : request) : js response :=
  let subscription := locals_subscription req in
  if subscriptionLapsed subscription
  then res_status_send Payment_Required
         (JString "Pay subscription fee to create an app.")
  else
    let appName := field (body req) "appName" in
    let admin := locals_admin req in
    let adminId := field admin "admin-id" in
    tryCatch
      (let! app := createApp appName adminId uuid in
       res_send (JItem app))
      (fun e => send (exn_status e) (jsOfOption (exn_data e))).

(** The loop shared by [listApps] and [listAppUsers]:
    [while (response.LastEvaluatedKey) { params.ExclusiveStartKey = ...;
    response = await ddbClient.query(params).promise();
    array.push(response.Items) }].  [push] appends its argument, the array
    of the page, as one element. *)
Fixpoint whileLastEvaluatedKey (fuel : nat) (params : queryParams)
    (response : queryResponse) (array : list jsval) : js (list jsval) :=
  match LastEvaluatedKey response with
  | Some key =>
      match fuel with
      | O => outOfFuel
      | S fuel =>
          let params :=
            {| query_TableName := query_TableName params;
               query_IndexName := query_IndexName params;
               query_KeyConditionExpression := query_KeyConditionExpression params;
               query_FilterExpression := query_FilterExpression params;
               query_Select := query_Select params;
               query_Limit := query_Limit params;
               query_ExclusiveStartKey := Some key |} in
          let! response := ddbClient.query params in
          whileLastEvaluatedKey fuel params response
            (array ++ [JArray (itemsArray (Items response))])
      end
  | None => ret array
  end.

(** [exports.listApps] *)
Definition listApps (fuel : nat) (req : request) : js response :=
  let admin := locals_admin req in
  let adminId := field admin "admin-id" in
  let params :=
    {| query_TableName := appsTableName;
       query_IndexName := None;
       query_KeyConditionExpression := ("admin-id", adminId);
       query_FilterExpression := None;
       query_Select := None;
       query_Limit := None;
       query_ExclusiveStartKey := None |} in
  tryCatch
    (let! appsResponse := ddbClient.query params in
     let apps := itemsArray (Items appsResponse) in
     let! apps := whileLastEvaluatedKey fuel params appsResponse apps in
     res_status_send Success (JArray apps))
    (fun e =>
       logger.error ("Failed to list apps with " +:+ exn_toString e) ;;;
       res_status_send Internal_Server_Error (JString "Failed to list apps")).

(** [async function getApp(adminId, appName)] *)
Definition getApp (adminId appName : string) : js (option item) :=
  let params :=
    {| get_TableName := appsTableName;
       get_Key := list_to_map [("admin-id", adminId); ("app-name", appName)] |} in
  ddbClient.get params.

(** [async function getAppByAppId(appId)]; [null] is [None]. *)
Definition getAppByAppId (appId : string) : js (option item) :=
  let params :=
    {| query_TableName := appsTableName;
       query_IndexName := Some appIdIndex;
       query_KeyConditionExpression := ("app-id", appId);
       query_FilterExpression := None;
       query_Select := Some ALL_ATTRIBUTES;
       query_Limit := None;
       query_ExclusiveStartKey := None |} in
  let! appResponse := ddbClient.query params in
  if (length (Items appResponse) =? 0)%nat then ret None
  else if (1 <? length (Items appResponse))%nat then
    let errorMsg := "Too many apps found with app id " +:+ appId in
    logger.fatal errorMsg ;;;
    throw (ThrownError errorMsg)
  else ret (head (Items appResponse)).

(** [exports.deleteApp] *)
Definition deleteApp (req : request) : js response :=
  let subscription := locals_subscription req in
  if subscriptionLapsed subscription
  then res_status_send Payment_Required
         (JString "Pay subscription fee to delete an app.")
  else
    let appName := field (body req) "appName" in
    let admin := locals_admin req in
    let adminId := field admin "admin-id" in
    if negb (truthy appName) || negb (truthy adminId)
    then res_status_send Bad_Request (JString "Missing required items")
    else
      tryCatch
        (let! now := Date_toISOString in
         let params :=
           {| update_TableName := appsTableName;
              update_Key := list_to_map [("admin-id", adminId); ("app-name", appName)];
              update_UpdateExpression := ("deleted", now);
              update_ConditionExpression :=
                Some (cond_and (attribute_exists "admin-id")
                               (attribute_not_exists "deleted")) |} in
         ddbClient.update params ;;;
         res_end)
        (fun e =>
           if bool_decide (exn_name e = Some "ConditionalCheckFailedException")
           then res_status_send Not_Found (JString "App not found")
           else
             logger.error ("Failed to delete app " +:+ appName +:+ " for admin "
                             +:+ adminId +:+ " with " +:+ exn_toString e) ;;;
             res_status_send Internal_Server_Error (JString "Failed to delete app")).

(** The two items of the transaction of [permanentDeleteApp]. *)
Definition existingAppParams (adminId appName appId : string) : deleteParams :=
  {| delete_TableName := appsTableName;
     delete_Key := list_to_map [("admin-id", adminId); ("app-name", appName)];
     delete_ConditionExpression :=
       Some (cond_and (attribute_exists "deleted")
                      (attribute_equals "app-id" appId)) |}.

Definition permanentDeletedAppParams (adminId appName appId : string) : putParams :=
  {| put_TableName := deletedAppsTableName;
     put_Item := list_to_map [("app-id", appId);
                              ("admin-id", adminId);
                              ("app-name", appName)];
     put_ConditionExpression := Some (attribute_not_exists "app-id") |}.

Definition transactionParams (adminId appName appId : string) : transactParams :=
  {| TransactItems := [Delete (existingAppParams adminId appName appId);
                       Put (permanentDeletedAppParams adminId appName appId)] |}.

(** [exports.permanentDeleteApp] *)
Definition permanentDeleteApp (req : request) : js response :=
  let subscription := locals_subscription req in
  if subscriptionLapsed subscription
  then res_status_send Payment_Required
         (JString "Pay subscription fee to permanently delete an app.")
  else
    let appName := field (body req) "appName" in
    let appId := field (body req) "appId" in
    let admin := locals_admin req in
    let adminId := field admin "admin-id" in
    if negb (truthy appName) || negb (truthy appId) || negb (truthy adminId)
    then res_status_send Bad_Request (JString "Missing required items")
    else
      tryCatch
        (ddbClient.transactWrite (transactionParams adminId appName appId) ;;;
         res_end)
        (fun e =>
           match exn_message e with
           | Some message =>
               if includes message "ConditionalCheckFailed]"
               then res_status_send Conflict
                      (JString "App already permanently deleted")
               else
                 logger.error ("Failed to permanently delete app " +:+ appName
                                 +:+ " for admin " +:+ adminId +:+ " with "
                                 +:+ exn_toString e) ;;;
                 res_status_send Internal_Server_Error
                   (JString "Failed to permanently delete app")
           | None =>
               throw (ThrownTypeError "Cannot read property 'includes' of undefined")
           end).

(** Truthiness of [app['deleted']]. *)
Definition truthyAttribute (o : option string) : bool :=
  match o with
  | Some s => truthy s
  | None => false
  end.

Section ListAppUsers.

(** [userController.buildUserResult] of [./user], applied by [map] to
    each element of the array. *)
Variable buildUserResult : jsval -> jsval.

(** [exports.listAppUsers] *)
Definition listAppUsers (fuel : nat) (req : request) : js response :=
  let appName := field (body req) "appName" in
  let admin := locals_admin req in
  let adminId := field admin "admin-id" in
  tryCatch
    (let! app := getApp adminId appName in
     match app with
     | None => res_status_send Not_Found (JString "App not found")
     | Some app =>
         if truthyAttribute (app !! "deleted")
         then res_status_send Not_Found (JString "App not found")
         else
           let params :=
             {| query_TableName := usersTableName;
                query_IndexName := Some appIdIndex;
                query_KeyConditionExpression := ("app-id", field app "app-id");
                query_FilterExpression := None;
                query_Select := None;
                query_Limit := None;
                query_ExclusiveStartKey := None |} in
           let! usersResponse := ddbClient.query params in
           let users := itemsArray (Items usersResponse) in
           let! users := whileLastEvaluatedKey fuel params usersResponse users in
           res_status_send Success
             (JObject [("users", JArray (buildUserResult <$> users));
                       ("appId", jsOfOption (app !! "app-id"))])
     end)
    (fun e =>
       logger.error ("Failed to list app users for app " +:+ appName
                       +:+ " and admin " +:+ adminId +:+ " with "
                       +:+ exn_toString e) ;;;
       res_status_send Internal_Server_Error (JString "Failed to list app users")).

End ListAppUsers.

(** Truthiness of the [limit] argument: [undefined] and [0] are falsy. *)
Definition truthyLimit (limit : option nat) : bool :=
  match limit with
  | Some (S _) => true
  | _ => false
  end.

(** The loop of [countNonDeletedAppUsers]:
    [while ((!limit || count < limit) && usersResponse.LastEvaluatedKey)]. *)
Fixpoint whileBelowLimit (fuel : nat) (limit : option nat) (params : queryParams)
    (usersResponse : queryResponse) (count : nat) : js nat :=
  match LastEvaluatedKey usersResponse with
  | Some key =>
      if negb (truthyLimit limit) || (count <? default 0 limit)%nat then
        match fuel with
        | O => outOfFuel
        | S fuel =>
            let params :=
              {| query_TableName := query_TableName params;
                 query_IndexName := query_IndexName params;
                 query_KeyConditionExpression := query_KeyConditionExpression params;
                 query_FilterExpression := query_FilterExpression params;
                 query_Select := query_Select params;
                 query_Limit := query_Limit params;
                 query_ExclusiveStartKey := Some key |} in
            let! usersResponse := ddbClient.query params in
            let count :=
              if truthyLimit limit
              then Nat.min (default 0 limit) (count + Count usersResponse)
              else count + Count usersResponse in
            whileBelowLimit fuel limit params usersResponse count
        end
      else ret count
  | None => ret count
  end.

(** [exports.countNonDeletedAppUsers]; an omitted [limit] is [None]. *)
Definition countNonDeletedAppUsers (fuel : nat) (appId : string)
    (limit : option nat) : js nat :=
  let params :=
    {| query_TableName := usersTableName;
       query_IndexName := Some appIdIndex;
       query_KeyConditionExpression := ("app-id", appId);
       query_FilterExpression :=
         Some (cond_and (attribute_not_exists "deleted")
                        (attribute_not_exists "seed-not-saved-yet"));
       query_Select := Some COUNT;
       query_Limit := if truthyLimit limit then limit else None;
       query_ExclusiveStartKey := None |} in
  let! usersResponse := ddbClient.query params in
  let count := Count usersResponse in
  whileBelowLimit fuel limit params usersResponse count.

(** * Vocabulary of the properties *)

Ltac js_unfold :=
  unfold bind, tryCatch, ret, throw, outOfFuel, Date_toISOString,
    ddbClient.put, ddbClient.update, ddbClient.transactWrite, ddbClient.get,
    ddbClient.query, ddbClient.write, logger.error, logger.fatal, logger.log,
    res_status_send, res_send, res_end, send.

(** The application stored at (admin-id, app-name), and the tombstone stored
    at an app-id. *)
Definition appAt (db : database) (adminId appName : string) : option item :=
  readKey db appsTableName [adminId; appName].

Definition tombstoneAt (db : database) (appId : string) : option item :=
  readKey db deletedAppsTableName [appId].

(** The item [createApp] builds and the [put] it issues. *)
Definition newApp (adminId trimmedAppName appId now : string) : item :=
  list_to_map [("admin-id", adminId); ("app-name", trimmedAppName);
               ("app-id", appId); ("creation-date", now)].

Definition createParams (app : item) : putParams :=
  {| put_TableName := appsTableName;
     put_Item := app;
     put_ConditionExpression := Some (attribute_not_exists "admin-id") |}.

(** A create call whose name is white space only is refused as blank,
    and nothing else happens. *)
Definition BlankNameRejected (appName adminId appId : string) (w : world) : Prop :=
  appName ≠ "" -> JsString.trim appName = "" ->
  createApp appName adminId appId w
  = (Thrown (ThrownObject (statusCodes Bad_Request) "App name cannot be blank"), w).

(** *** Sample data *)

Definition sampleClock : string := "2019-10-01T00:00:00.000Z".

(** An empty store that answers two items a page. *)
Definition emptyWorld : world := World (Database [] [] [] 2) [] [] sampleClock.

(** The world after administrator adm1 has created the application shop. *)
Definition shopWorld : world := snd (createApp " shop " "adm1" "id-1" emptyWorld).

(** The responses of the handlers. *)
Definition paymentRequired (message : string) : response :=
  Response (Some (statusCodes Payment_Required)) (Some (JString message)).

Definition ended : response := Response (Some 200) None.

Definition notFound : response :=
  Response (Some (statusCodes Not_Found)) (Some (JString "App not found")).

Definition conflict : response :=
  Response (Some (statusCodes Conflict))
           (Some (JString "App already permanently deleted")).

Definition internalError (message : string) : response :=
  Response (Some (statusCodes Internal_Server_Error)) (Some (JString message)).

(** The fields a request names. *)
Definition adminIdOf (req : request) : string := field (locals_admin req) "admin-id".
Definition appNameOf (req : request) : string := field (body req) "appName".
Definition appIdOf (req : request) : string := field (body req) "appId".

(** A subscription is in order when it is there, active, and not set to
    end with the period. *)
Definition subscribed (req : request) : Prop :=
  exists s, locals_subscription req = Some s
            /\ status s = "active" /\ cancel_at_period_end s = false.

(** A request of administrator adm1, subscription in order. *)
Definition adm1Request (fields : list (string * string)) : request :=
  Request (list_to_map fields) (Some (Subscription false "active"))
          {[ "admin-id" := "adm1" ]}.

(** The update [deleteApp] issues. *)
Definition softDeleteParams (adminId appName now : string) : updateParams :=
  {| update_TableName := appsTableName;
     update_Key := list_to_map [("admin-id", adminId); ("app-name", appName)];
     update_UpdateExpression := ("deleted", now);
     update_ConditionExpression :=
       Some (cond_and (attribute_exists "admin-id")
                      (attribute_not_exists "deleted")) |}.

(** The request of adm1 that names [shop] and its identifier, and the same
    request under a subscription set to cancel at the end of the period. *)
Definition shopRequest : request :=
  adm1Request [("appName", "shop"); ("appId", "id-1")].

Definition lapsedShopRequest : request :=
  Request (body shopRequest) (Some (Subscription true "active"))
          (locals_admin shopRequest).

(** The world after [shop] has been soft-deleted. *)
Definition deletedShopWorld : world := snd (deleteApp shopRequest shopWorld).

(** The record at (owner id, name) is soft-deleted and carries the
    application id. *)
Definition softDeletedWithId (db : database) (adminId appName appId : string) : Prop :=
  exists r, appAt db adminId appName = Some r
            /\ is_Some (r !! "deleted") /\ r !! "app-id" = Some appId.

(** The transaction of a permanent delete goes through: both conditions
    hold. *)
Definition transactionCommits (db : database) (adminId appName appId : string) : Prop :=
  softDeletedWithId db adminId appName appId /\ tombstoneAt db appId = None.

Definition tombstone (adminId appName appId : string) : item :=
  put_Item (permanentDeletedAppParams adminId appName appId).

(** Every aborted transaction is answered 409 Conflict. *)
Definition AbortIsConflict (req : request) (w : world) : Prop :=
  ~ transactionCommits (store w) (adminIdOf req) (appNameOf req) (appIdOf req) ->
  fst (permanentDeleteApp req w) = Returned conflict.

(** The line [permanentDeleteApp] logs when it answers 500. *)
Definition permanentDeleteLog (adminId appName : string) (oks : list bool)
  : logLevel * string :=
  (error, "Failed to permanently delete app " +:+ appName +:+ " for admin "
            +:+ adminId +:+ " with "
            +:+ exn_toString (ThrownAws (TransactionCanceledException oks))).

(** The world after [shop] has been permanently deleted. *)
Definition retiredShopWorld : world :=
  snd (permanentDeleteApp shopRequest deletedShopWorld).

(** The query [getAppByAppId] issues on the app-id index. *)
Definition appIdQuery (appId : string) : queryParams :=
  {| query_TableName := appsTableName;
     query_IndexName := Some appIdIndex;
     query_KeyConditionExpression := ("app-id", appId);
     query_FilterExpression := None;
     query_Select := Some ALL_ATTRIBUTES;
     query_Limit := None;
     query_ExclusiveStartKey := None |}.

(** The message of the error [getAppByAppId] logs and throws. *)
Definition tooManyApps (appId : string) : string :=
  "Too many apps found with app id " +:+ appId.

(** A corrupted store: two application records share the identifier id-1. *)
Definition corruptWorld : world :=
  World (Database [newApp "adm1" "shop" "id-1" sampleClock;
                   newApp "adm2" "store" "id-1" sampleClock] [] [] 2)
        [] [] sampleClock.

(** *** Pages *)

(** The parameters of a continuation query: the same query, started after
    the key the last response returned. *)
Definition continueFrom (params : queryParams) (key : nat) : queryParams :=
  {| query_TableName := query_TableName params;
     query_IndexName := query_IndexName params;
     query_KeyConditionExpression := query_KeyConditionExpression params;
     query_FilterExpression := query_FilterExpression params;
     query_Select := query_Select params;
     query_Limit := query_Limit params;
     query_ExclusiveStartKey := Some key |}.

(** The pages that follow the page that started at the head of [rest], when
    each page examines [bound] items: a page follows as long as the one
    before it was full. *)
Fixpoint laterPages (fuel bound : nat) (rest : list item) : list (list item) :=
  match fuel with
  | O => []
  | S fuel =>
      if (bound <=? length rest)%nat
      then take bound (drop bound rest) :: laterPages fuel bound (drop bound rest)
      else []
  end.

(** What the listing loops build from the pages: the items of the first
    page, then each later page as one element. *)
Definition pushedPages (first : list item) (later : list (list item)) : list jsval :=
  itemsArray first ++ ((fun page => JArray (itemsArray page)) <$> later).

(** The applications of an administrator, in the order of the table. *)
Definition appsOf (db : database) (adminId : string) : list item :=
  List.filter (fun it => bool_decide (it !! "admin-id" = Some adminId)) (appsTable db).

(** The users of an application, in the order of the app-id index. *)
Definition usersOf (db : database) (appId : string) : list item :=
  List.filter (fun it => bool_decide (it !! "app-id" = Some appId)) (usersTable db).

(** The queries of the two listings, and the point lookup of [getApp]. *)
Definition appsQuery (adminId : string) : queryParams :=
  {| query_TableName := appsTableName;
     query_IndexName := None;
     query_KeyConditionExpression := ("admin-id", adminId);
     query_FilterExpression := None;
     query_Select := None;
     query_Limit := None;
     query_ExclusiveStartKey := None |}.

Definition usersQuery (appId : string) : queryParams :=
  {| query_TableName := usersTableName;
     query_IndexName := Some appIdIndex;
     query_KeyConditionExpression := ("app-id", appId);
     query_FilterExpression := None;
     query_Select := None;
     query_Limit := None;
     query_ExclusiveStartKey := None |}.

Definition appKey (adminId appName : string) : getParams :=
  {| get_TableName := appsTableName;
     get_Key := list_to_map [("admin-id", adminId); ("app-name", appName)] |}.

(** The listing the specification asks for: every matching item, in page
    order, as one flat sequence. *)
Definition flatListing (items : list item) : jsval := JArray (itemsArray items).

Definition success (v : jsval) : response :=
  Response (Some (statusCodes Success)) (Some v).

(** What [listAppUsers] sends for an application and the array of its
    users. *)
Definition usersResult (buildUserResult : jsval -> jsval) (app : item)
    (users : list jsval) : jsval :=
  JObject [("users", JArray (buildUserResult <$> users));
           ("appId", jsOfOption (app !! "app-id"))].

(** The line [listAppUsers] logs when it answers 500. *)
Definition listAppUsersLog (adminId appName : string) (e : exn) : logLevel * string :=
  (error, "Failed to list app users for app " +:+ appName +:+ " and admin "
            +:+ adminId +:+ " with " +:+ exn_toString e).

(** Whenever no record is stored at (owner id, name), the listing of the
    users is answered 404. *)
Definition AbsentIsNotFound (buildUserResult : jsval -> jsval) (fuel : nat)
    (req : request) (w : world) : Prop :=
  appAt (store w) (field (locals_admin req) "admin-id") (field (body req) "appName")
  = None ->
  fst (listAppUsers buildUserResult fuel req w)
  = Returned (Response (Some (statusCodes Not_Found)) (Some (JString "App not found"))).

(** A record is soft-deleted when it carries a deletion timestamp; the
    timestamps the module writes are ISO dates, never the empty string. *)
Definition softDeleted (app : item) : Prop :=
  exists timestamp, app !! "deleted" = Some timestamp /\ timestamp ≠ "".

(** A user item of an application. *)
Definition user (userId appId : string) (attributes : list (string * string)) : item :=
  list_to_map (("user-id", userId) :: ("app-id", appId) :: attributes).

(** Three applications of adm1 and three users of the first of them, in a
    store that answers two items a page. *)
Definition appA : item := newApp "adm1" "a" "id-1" sampleClock.
Definition appB : item := newApp "adm1" "b" "id-2" sampleClock.
Definition appC : item := newApp "adm1" "c" "id-3" sampleClock.

Definition user1 : item := user "u1" "id-1" [].
Definition user2 : item := user "u2" "id-1" [].
Definition user3 : item := user "u3" "id-1" [].

Definition pagedWorld : world :=
  World (Database [appA; appB; appC] [] [user1; user2; user3] 2)
        [] [] sampleClock.

(** The request of adm1 that names the application [a]. *)
Definition appARequest : request := adm1Request [("appName", "a")].

(** *** Counting *)

(** A user counts when it is neither deleted nor waiting for its seed. *)
Definition isActiveUser (it : item) : bool :=
  bool_decide (it !! "deleted" = None)
  && bool_decide (it !! "seed-not-saved-yet" = None).

Definition countActive (l : list item) : nat := length (List.filter isActiveUser l).

(** The number of users of an application that count, over the whole
    table. *)
Definition activeUsers (db : database) (appId : string) : nat :=
  countActive (usersOf db appId).

Definition activeFilter : condition :=
  cond_and (attribute_not_exists "deleted")
           (attribute_not_exists "seed-not-saved-yet").

(** The first query of [countNonDeletedAppUsers]. *)
Definition countQuery (appId : string) (limit : option nat) : queryParams :=
  {| query_TableName := usersTableName;
     query_IndexName := Some appIdIndex;
     query_KeyConditionExpression := ("app-id", appId);
     query_FilterExpression := Some activeFilter;
     query_Select := Some COUNT;
     query_Limit := if truthyLimit limit then limit else None;
     query_ExclusiveStartKey := None |}.

(** The count, capped at the limit when one is given. *)
Definition capped (limit : option nat) (n : nat) : nat :=
  if truthyLimit limit then Nat.min (default 0 limit) n else n.

(** Nine users of the application id-1, six of which count, in a store that
    answers two items a page: no page holds more than two users that
    count. *)
Definition countWorld : world :=
  World (Database [] []
           [user "u1" "id-1" [];
            user "u2" "id-1" [("deleted", sampleClock)];
            user "u3" "id-1" [];
            user "u4" "id-1" [("seed-not-saved-yet", "true")];
            user "u5" "id-1" [];
            user "u6" "id-1" [];
            user "u7" "id-1" [("deleted", sampleClock)];
            user "u8" "id-1" [];
            user "u9" "id-1" []]
           2)
        [] [] sampleClock.

(** *** Vocabulary of the further properties *)

(** The elements of an array once every nested array is spliced in. *)
Definition spliced (array : list jsval) : list jsval :=
  concat ((fun v => match v with
                    | JArray l => l
                    | _ => [v]
                    end) <$> array).

(** The store calls that only read. *)
Definition isReadCall (c : ddbCall) : Prop :=
  match c with
  | CallGet _ | CallQuery _ => True
  | CallPut _ | CallUpdate _ | CallTransactWrite _ => False
  end.

(** A computation that only reads: however it ends, the store is as it
    found it and the calls it issued are gets and queries. *)
Definition readOnly {A} (m : js A) : Prop :=
  forall w, store (snd (m w)) = store w
            /\ exists issued, calls (snd (m w)) = calls w ++ issued
                              /\ Forall isReadCall issued.

(** A computation out of which no exception escapes. *)
Definition neverThrows {A} (m : js A) : Prop :=
  forall w e, fst (m w) ≠ Thrown e.

(** The same store read through pages of another size. *)
Definition withPageCap (cap : positive) (w : world) : world :=
  World (Database (appsTable (store w)) (deletedAppsTable (store w))
                  (usersTable (store w)) cap)
        (calls w) (logs w) (clock w).

(** A request of adm1 whose application name is the empty string. *)
Definition unnamedRequest : request := adm1Request [("appName", "")].

(** A request of adm1 with a subscription in order and no body. *)
Definition emptyRequest : request := adm1Request [].

(** The request of adm1 that names [shop] with white space around it. *)
Definition paddedShopRequest : request :=
  adm1Request [("appName", " shop "); ("appId", "id-1")].

(** * Properties *)

(** ** The store: reading after writing *)

Section StoreFacts.

Implicit Types (db : database) (t : tableName) (k : list string) (it : item).

Lemma tableItems_set_eq db t l : tableItems (setTableItems db t l) t = l.
Proof. by destruct t. Qed.

Lemma tableItems_set_ne db t t' l :
  t ≠ t' -> tableItems (setTableItems db t l) t' = tableItems db t'.
Proof. by destruct t, t'. Qed.

Lemma pageCap_set db t l : pageCap (setTableItems db t l) = pageCap db.
Proof. by destruct t. Qed.

Lemma sameKey_true t k it : sameKey t k it = true <-> keyOf t it = Some k.
Proof. unfold sameKey. by rewrite bool_decide_eq_true. Qed.

Lemma sameKey_false t k it : sameKey t k it = false <-> keyOf t it ≠ Some k.
Proof. unfold sameKey. by rewrite bool_decide_eq_false. Qed.

(** An item found at a key carries that key. *)
Lemma readKey_keyOf db t k it : readKey db t k = Some it -> keyOf t it = Some k.
Proof.
  unfold readKey. intros H. apply find_some in H as [_ H].
  by apply sameKey_true.
Qed.

Lemma find_none_existsb {A} (f : A -> bool) (l : list A) :
  List.find f l = None <-> existsb f l = false.
Proof.
  induction l as [|x l IH]; simpl; [done|].
  destruct (f x); simpl; [split; discriminate | exact IH].
Qed.

Lemma readKey_writeKey_None db t k : readKey (writeKey db t k None) t k = None.
Proof.
  unfold readKey, writeKey. rewrite tableItems_set_eq.
  induction (tableItems db t) as [|x l IH]; simpl; [done|].
  destruct (sameKey t k x) eqn:E; simpl; [exact IH|].
  by rewrite E.
Qed.

Lemma readKey_writeKey_Some db t k it :
  keyOf t it = Some k -> readKey (writeKey db t k (Some it)) t k = Some it.
Proof.
  intros Hk. apply sameKey_true in Hk.
  unfold readKey, writeKey. rewrite tableItems_set_eq.
  destruct (existsb (sameKey t k) (tableItems db t)) eqn:E.
  - induction (tableItems db t) as [|x l IH]; simpl in *; [done|].
    destruct (sameKey t k x) eqn:Ex; simpl.
    + by rewrite Hk.
    + rewrite Ex. by apply IH.
  - induction (tableItems db t) as [|x l IH]; simpl in *.
    + by rewrite Hk.
    + apply orb_false_iff in E as [Ex El]. rewrite Ex. by apply IH.
Qed.

Lemma readKey_writeKey_table db t t' k k' v :
  t ≠ t' -> readKey (writeKey db t k v) t' k' = readKey db t' k'.
Proof.
  intros Hne. unfold readKey, writeKey. by rewrite tableItems_set_ne.
Qed.

(** Writing at a key leaves the items at the other keys of the table. *)
Lemma readKey_writeKey_key db t k k' v :
  k ≠ k' -> (forall it, v = Some it -> keyOf t it = Some k) ->
  readKey (writeKey db t k v) t k' = readKey db t k'.
Proof.
  intros Hne Hv. unfold readKey, writeKey. rewrite tableItems_set_eq.
  assert (Hk : forall x, sameKey t k x = true -> sameKey t k' x = false).
  { intros x Hx. apply sameKey_true in Hx. apply sameKey_false. congruence. }
  destruct v as [new|].
  - specialize (Hv new eq_refl). apply sameKey_true in Hv.
    destruct (existsb (sameKey t k) (tableItems db t)).
    + induction (tableItems db t) as [|x l IH]; simpl; [done|].
      destruct (sameKey t k x) eqn:Ex.
      * rewrite (Hk _ Hv), (Hk _ Ex). exact IH.
      * destruct (sameKey t k' x); [done | exact IH].
    + induction (tableItems db t) as [|x l IH]; simpl.
      * by rewrite (Hk _ Hv).
      * destruct (sameKey t k' x); [done | exact IH].
  - induction (tableItems db t) as [|x l IH]; simpl; [done|].
    destruct (sameKey t k x) eqn:Ex; simpl.
    + rewrite (Hk _ Ex). exact IH.
    + destruct (sameKey t k' x); [done | exact IH].
Qed.

Lemma usersTable_writeKey db t k v :
  keySchema t ≠ None -> usersTable (writeKey db t k v) = usersTable db.
Proof. by destruct t. Qed.

Lemma pageCap_writeKey db t k v : pageCap (writeKey db t k v) = pageCap db.
Proof. unfold writeKey. apply pageCap_set. Qed.

End StoreFacts.

(** ** Keys of the items the module builds *)

Lemma keyAttribute_Some (k : item) a v :
  keyAttribute k a = Some v <-> k !! a = Some v /\ v ≠ "".
Proof.
  unfold keyAttribute. destruct (k !! a) as [v'|]; [|by split; [|intros []]].
  destruct v' as [|c v']; cbn [JsString.truthy].
  - split; [done|]. by intros [[= <-] ?].
  - split; [by intros [= <-] | by intros [[= <-] _]].
Qed.

Lemma keyOf_apps_inv (it : item) a n :
  keyOf appsTableName it = Some [a; n] ->
  it !! "admin-id" = Some a /\ it !! "app-name" = Some n.
Proof.
  unfold keyOf; simpl.
  destruct (keyAttribute it "admin-id") as [a'|] eqn:Ea; simpl; [|done].
  destruct (keyAttribute it "app-name") as [n'|] eqn:En; simpl; [|done].
  intros [= <- <-]. apply keyAttribute_Some in Ea as [Ea _], En as [En _]. done.
Qed.

(** The store holds no record under a key with an empty component. *)
Lemma keyOf_apps_nonempty (it : item) a n :
  keyOf appsTableName it = Some [a; n] -> a ≠ "" /\ n ≠ "".
Proof.
  unfold keyOf; simpl.
  destruct (keyAttribute it "admin-id") as [a'|] eqn:Ea; simpl; [|done].
  destruct (keyAttribute it "app-name") as [n'|] eqn:En; simpl; [|done].
  intros [= <- <-]. apply keyAttribute_Some in Ea as [_ Ea], En as [_ En]. done.
Qed.

Lemma keyOf_apps (it : item) a n :
  a ≠ "" -> n ≠ "" ->
  it !! "admin-id" = Some a -> it !! "app-name" = Some n ->
  keyOf appsTableName it = Some [a; n].
Proof.
  intros Ha Hn Hia Hin. unfold keyOf; simpl.
  rewrite (proj2 (keyAttribute_Some it "admin-id" a)) by done.
  rewrite (proj2 (keyAttribute_Some it "app-name" n)) by done. done.
Qed.

(** A key with an empty component is no key for the store. *)
Lemma keyOf_app_key_empty a n :
  a = "" \/ n = "" ->
  keyOf appsTableName (list_to_map [("admin-id", a); ("app-name", n)]) = None.
Proof.
  intros H. unfold keyOf, keyAttribute; simpl.
  destruct H as [-> | ->]; [done|].
  rewrite lookup_insert_eq. destruct (JsString.truthy a); simpl; [|done].
  by rewrite lookup_insert_ne, lookup_insert_eq.
Qed.

Lemma keyOf_deletedApps_inv (it : item) i :
  keyOf deletedAppsTableName it = Some [i] -> it !! "app-id" = Some i.
Proof.
  unfold keyOf; simpl.
  destruct (keyAttribute it "app-id") as [i'|] eqn:Ei; simpl; [|done].
  intros [= <-]. by apply keyAttribute_Some in Ei as [Ei _].
Qed.

Lemma keyOf_deletedApps (it : item) i :
  i ≠ "" -> it !! "app-id" = Some i -> keyOf deletedAppsTableName it = Some [i].
Proof.
  intros Hi Hit. unfold keyOf; simpl.
  by rewrite (proj2 (keyAttribute_Some it "app-id" i)).
Qed.

Lemma keyOf_app_key a n :
  a ≠ "" -> n ≠ "" ->
  keyOf appsTableName (list_to_map [("admin-id", a); ("app-name", n)]) = Some [a; n].
Proof. intros. by apply keyOf_apps. Qed.

Lemma keyOf_new_app a n i d :
  a ≠ "" -> n ≠ "" ->
  keyOf appsTableName
    (list_to_map [("admin-id", a); ("app-name", n); ("app-id", i);
                  ("creation-date", d)]) = Some [a; n].
Proof. intros. by apply keyOf_apps. Qed.

Lemma keyOf_tombstone a n i :
  i ≠ "" ->
  keyOf deletedAppsTableName
    (list_to_map [("app-id", i); ("admin-id", a); ("app-name", n)]) = Some [i].
Proof. intros. by apply keyOf_deletedApps. Qed.

(** ** Strings *)

Lemma truthy_true s : JsString.truthy s = true <-> s ≠ "".
Proof. by destruct s. Qed.

Lemma truthy_false s : JsString.truthy s = false <-> s = "".
Proof. by destruct s. Qed.

Lemma trim_empty : JsString.trim "" = "".
Proof. done. Qed.

Lemma truthy_trim s : JsString.truthy (JsString.trim s) = true -> JsString.truthy s = true.
Proof. by destruct s. Qed.

Lemma trimStart_allWhiteSpace s :
  JsString.allWhiteSpace s = true -> JsString.trimStart s = "".
Proof.
  induction s as [|c s IH]; simpl; [done|].
  destruct (JsString.isWhiteSpace c); simpl; [exact IH | done].
Qed.

Lemma trimEnd_truthy s : s ≠ "" -> JsString.trimEnd s = "" -> JsString.allWhiteSpace s = true.
Proof.
  induction s as [|c s IH]; [done|]. intros _. simpl.
  destruct (JsString.trimEnd s) eqn:E.
  - destruct (JsString.isWhiteSpace c); [|done]. intros _. simpl.
    destruct s; [done|]. by apply IH.
  - done.
Qed.

Lemma trimStart_cons s :
  JsString.trimStart s = "" \/
  exists c s', JsString.trimStart s = String c s' /\ JsString.isWhiteSpace c = false.
Proof.
  induction s as [|c s IH]; simpl; [by left|].
  destruct (JsString.isWhiteSpace c) eqn:E; [exact IH|]. right. eauto.
Qed.

(** A string trims to the empty string exactly when it consists of white
    space only. *)
Lemma trim_blank s : JsString.trim s = "" <-> JsString.allWhiteSpace s = true.
Proof.
  unfold JsString.trim. split.
  - intros H. destruct (trimStart_cons s) as [E|(c & s' & E & Hc)].
    + clear H. induction s as [|c s IH]; simpl in *; [done|].
      destruct (JsString.isWhiteSpace c); [by apply IH | done].
    + rewrite E in H. apply trimEnd_truthy in H; [|done].
      simpl in H. by rewrite Hc in H.
  - intros H. by rewrite trimStart_allWhiteSpace.
Qed.

(** ** createApp *)

Lemma createApp_missing appName adminId appId w :
  appName = "" \/ adminId = "" ->
  createApp appName adminId appId w
  = (Thrown (ThrownObject 400 "Missing required items"), w).
Proof.
  intros H. unfold createApp.
  assert (negb (JsString.truthy appName) || negb (JsString.truthy adminId) = true) as ->.
  { destruct H as [-> | ->]; [done|]. by rewrite orb_true_r. }
  done.
Qed.

Lemma createApp_blank appName adminId appId w :
  appName ≠ "" -> adminId ≠ "" -> JsString.trim appName = "" ->
  createApp appName adminId appId w
  = (Thrown (ThrownObject 400 "App name cannot be blank"), w).
Proof.
  intros Hn Ha Ht. unfold createApp.
  apply truthy_true in Hn, Ha. rewrite Hn, Ha, Ht. done.
Qed.

Lemma createApp_existing appName adminId appId w r :
  adminId ≠ "" -> JsString.trim appName ≠ "" ->
  appAt (store w) adminId (JsString.trim appName) = Some r ->
  createApp appName adminId appId w
  = (Thrown (ThrownObject 409 "App already exists"),
     ddbClient.record
       (CallPut (createParams (newApp adminId (JsString.trim appName) appId (clock w))))
       w).
Proof.
  intros Ha Ht Hr. unfold createApp.
  pose proof Ha as Ha'. pose proof Ht as Ht'.
  apply truthy_true in Ha, Ht. rewrite (truthy_trim _ Ht), Ha, Ht.
  cbn [negb orb]. js_unfold. unfold Store.put, ddbClient.record.
  cbn [put_TableName put_Item put_ConditionExpression store].
  rewrite keyOf_new_app by done. unfold appAt in Hr. rewrite Hr.
  apply readKey_keyOf, keyOf_apps_inv in Hr as [Hr _].
  cbn [evalOptCondition evalCondition attribute]. rewrite Hr.
  done.
Qed.

Lemma createApp_fresh appName adminId appId w :
  adminId ≠ "" -> JsString.trim appName ≠ "" ->
  appAt (store w) adminId (JsString.trim appName) = None ->
  let app := newApp adminId (JsString.trim appName) appId (clock w) in
  createApp appName adminId appId w
  = (Returned app,
     World (writeKey (store w) appsTableName [adminId; JsString.trim appName] (Some app))
           (calls w ++ [CallPut (createParams app)]) (logs w) (clock w)).
Proof.
  intros Ha Ht Hr. unfold createApp.
  pose proof Ha as Ha'. pose proof Ht as Ht'.
  apply truthy_true in Ha, Ht. rewrite (truthy_trim _ Ht), Ha, Ht.
  cbn [negb orb]. js_unfold. unfold Store.put, ddbClient.record.
  cbn [put_TableName put_Item put_ConditionExpression store].
  rewrite keyOf_new_app by done. unfold appAt in Hr. rewrite Hr. done.
Qed.

(** A call that returns has stored the application at (admin-id, trimmed
    name), both non-empty. *)
Lemma createApp_returned appName adminId appId w app w' :
  createApp appName adminId appId w = (Returned app, w') ->
  adminId ≠ "" /\ JsString.trim appName ≠ "" /\
  appAt (store w') adminId (JsString.trim appName) = Some app.
Proof.
  intros H.
  destruct (decide (appName = "")) as [->|Hn].
  { rewrite createApp_missing in H; [done | by left]. }
  destruct (decide (adminId = "")) as [->|Ha].
  { rewrite createApp_missing in H; [done | by right]. }
  destruct (decide (JsString.trim appName = "")) as [Ht|Ht].
  { by rewrite createApp_blank in H. }
  destruct (appAt (store w) adminId (JsString.trim appName)) as [r|] eqn:Hr.
  { by erewrite createApp_existing in H. }
  rewrite createApp_fresh in H by done. cbv zeta in H.
  apply pair_equal_spec in H as [Happ <-]. injection Happ as <-.
  split; [done|]. split; [done|].
  unfold appAt. cbn [store].
  apply readKey_writeKey_Some, keyOf_new_app; done.
Qed.

(** The second of two identical create calls is refused, whatever
    identifier it brings, and changes nothing in the store. *)
Lemma createApp_twice appName adminId appId1 appId2 w1 app w2 :
  createApp appName adminId appId1 w1 = (Returned app, w2) ->
  fst (createApp appName adminId appId2 w2)
  = Thrown (ThrownObject 409 "App already exists")
  /\ store (snd (createApp appName adminId appId2 w2)) = store w2.
Proof.
  intros H. apply createApp_returned in H as (Ha & Ht & Hr).
  by rewrite (createApp_existing _ _ _ _ _ Ha Ht Hr).
Qed.

(** C4. When a record already exists at (owner id, name), a create call for
    that pair fails with status Conflict and message "App already exists";
    the failed call writes nothing: the store and the log are as before. *)
Theorem createApp_existing_conflict appName adminId appId w :
  adminId ≠ "" -> JsString.trim appName ≠ "" ->
  is_Some (appAt (store w) adminId (JsString.trim appName)) ->
  fst (createApp appName adminId appId w)
  = Thrown (ThrownObject (statusCodes Conflict) "App already exists")
  /\ store (snd (createApp appName adminId appId w)) = store w
  /\ logs (snd (createApp appName adminId appId w)) = logs w.
Proof.
  intros Ha Ht [r Hr]. by rewrite (createApp_existing _ _ _ _ _ Ha Ht Hr).
Qed.

Lemma createApp_existing_conflict_witness :
  fst (createApp "shop" "adm1" "id-2" shopWorld)
  = Thrown (ThrownObject (statusCodes Conflict) "App already exists")
  /\ store (snd (createApp "shop" "adm1" "id-2" shopWorld)) = store shopWorld
  /\ logs (snd (createApp "shop" "adm1" "id-2" shopWorld)) = logs shopWorld.
Proof.
  apply createApp_existing_conflict; [done | done |].
  vm_compute. eexists. reflexivity.
Defined.

(** C5, as stated, fails when the owner id is missing: the call is then
    refused as "Missing required items", before the name is looked at. *)
Lemma createApp_blank_missing_owner :
  createApp " " "" "id-1" emptyWorld
  = (Thrown (ThrownObject (statusCodes Bad_Request) "Missing required items"),
     emptyWorld)
  /\ ~ BlankNameRejected " " "" "id-1" emptyWorld.
Proof.
  split; [reflexivity|].
  intros H. specialize (H ltac:(done) eq_refl). discriminate H.
Qed.

(** C5, amended. For every create call with a non-empty owner id whose raw
    name is non-empty but white space only, the call fails with status Bad
    Request and the message "App name cannot be blank", and the world is
    left as it was: no store call is issued, nothing is written. *)
Theorem createApp_blank_name_rejected appName adminId appId w :
  adminId ≠ "" -> BlankNameRejected appName adminId appId w.
Proof. intros Ha Hn Ht. by apply createApp_blank. Qed.

Lemma createApp_blank_name_rejected_witness :
  createApp "   " "adm1" "id-1" emptyWorld
  = (Thrown (ThrownObject (statusCodes Bad_Request) "App name cannot be blank"),
     emptyWorld).
Proof.
  apply (createApp_blank_name_rejected "   " "adm1" "id-1" emptyWorld); done.
Defined.

(** ** The subscription gate *)

Lemma subscriptionLapsed_false req :
  subscriptionLapsed (locals_subscription req) = false <-> subscribed req.
Proof.
  unfold subscribed, subscriptionLapsed.
  destruct (locals_subscription req) as [[c st]|]; simpl.
  - rewrite orb_false_iff, negb_false_iff, bool_decide_eq_true. split.
    + intros [-> ->]. eauto.
    + by intros (s & [= <-] & H1 & H2).
  - split; [done | by intros (s & ? & _)].
Qed.

Lemma subscriptionLapsed_true req :
  subscriptionLapsed (locals_subscription req) = true <-> ~ subscribed req.
Proof.
  rewrite <- subscriptionLapsed_false.
  by destruct (subscriptionLapsed (locals_subscription req)).
Qed.

(** C9. Each of the three mutating handlers tests the subscription itself:
    when it is missing, not active, or set to cancel at the end of the
    period, the handler answers 402 Payment Required and the world is the
    one it started from: no store call was issued, the store is unchanged. *)
Theorem lapsed_subscription_payment_required uuid req w :
  locals_subscription req = None
  \/ (exists s, locals_subscription req = Some s
                /\ (status s ≠ "active" \/ cancel_at_period_end s = true)) ->
  createAppController uuid req w
  = (Returned (paymentRequired "Pay subscription fee to create an app."), w)
  /\ deleteApp req w
     = (Returned (paymentRequired "Pay subscription fee to delete an app."), w)
  /\ permanentDeleteApp req w
     = (Returned (paymentRequired
                    "Pay subscription fee to permanently delete an app."), w).
Proof.
  intros H.
  assert (subscriptionLapsed (locals_subscription req) = true) as Hl.
  { destruct H as [-> | (s & -> & [Hs | Hc])]; simpl; [done | |].
    - rewrite bool_decide_eq_false_2 by done. apply orb_true_r.
    - by rewrite Hc. }
  unfold createAppController, deleteApp, permanentDeleteApp. rewrite Hl.
  done.
Qed.

Lemma lapsed_subscription_payment_required_witness :
  createAppController "id-2" lapsedShopRequest shopWorld
  = (Returned (paymentRequired "Pay subscription fee to create an app."), shopWorld)
  /\ deleteApp lapsedShopRequest shopWorld
     = (Returned (paymentRequired "Pay subscription fee to delete an app."), shopWorld)
  /\ permanentDeleteApp lapsedShopRequest shopWorld
     = (Returned (paymentRequired
                    "Pay subscription fee to permanently delete an app."), shopWorld).
Proof.
  apply lapsed_subscription_payment_required.
  right. eexists. split; [reflexivity|]. right. reflexivity.
Defined.

(** ** deleteApp *)

Section DeleteApp.

Variables (req : request) (w : world).
Hypothesis Hsub : subscribed req.
Hypothesis HappName : appNameOf req ≠ "".
Hypothesis HadminId : adminIdOf req ≠ "".

Lemma deleteApp_active r :
  appAt (store w) (adminIdOf req) (appNameOf req) = Some r ->
  r !! "deleted" = None ->
  deleteApp req w
  = (Returned ended,
     World (writeKey (store w) appsTableName [adminIdOf req; appNameOf req]
                     (Some (<["deleted" := clock w]> r)))
           (calls w ++ [CallUpdate (softDeleteParams (adminIdOf req) (appNameOf req)
                                                     (clock w))])
           (logs w) (clock w)).
Proof using Hsub HappName HadminId.
  intros Hr Hd. unfold deleteApp.
  apply subscriptionLapsed_false in Hsub. rewrite Hsub.
  fold (appNameOf req) (adminIdOf req).
  pose proof HappName as Hn'. pose proof HadminId as Ha'.
  apply truthy_true in HappName, HadminId. rewrite HappName, HadminId.
  cbn [negb orb]. js_unfold. unfold Store.update, ddbClient.record.
  cbn [update_TableName update_Key update_ConditionExpression
       update_UpdateExpression store].
  rewrite keyOf_app_key by done. unfold appAt in Hr. rewrite Hr.
  cbn [evalOptCondition evalCondition attribute].
  apply readKey_keyOf, keyOf_apps_inv in Hr as [Hr _]. rewrite Hr, Hd.
  done.
Qed.

Lemma deleteApp_not_active :
  (forall r, appAt (store w) (adminIdOf req) (appNameOf req) = Some r ->
             is_Some (r !! "deleted")) ->
  deleteApp req w
  = (Returned notFound,
     ddbClient.record
       (CallUpdate (softDeleteParams (adminIdOf req) (appNameOf req) (clock w))) w).
Proof using Hsub HappName HadminId.
  intros Hr. unfold deleteApp.
  apply subscriptionLapsed_false in Hsub. rewrite Hsub.
  fold (appNameOf req) (adminIdOf req).
  pose proof HappName as Hn'. pose proof HadminId as Ha'.
  apply truthy_true in HappName, HadminId. rewrite HappName, HadminId.
  cbn [negb orb]. js_unfold. unfold Store.update, ddbClient.record.
  cbn [update_TableName update_Key update_ConditionExpression
       update_UpdateExpression store].
  rewrite keyOf_app_key by done. unfold appAt in Hr.
  destruct (readKey (store w) appsTableName [adminIdOf req; appNameOf req])
    as [r|] eqn:E; cbn [evalOptCondition evalCondition attribute].
  - destruct (Hr r eq_refl) as [d Hd]. rewrite Hd.
    rewrite (bool_decide_eq_false_2 (Some d = None)) by done.
    rewrite andb_false_r. done.
  - done.
Qed.

End DeleteApp.

Lemma keyOf_apps_insert_deleted (r : item) k now :
  keyOf appsTableName r = Some k ->
  keyOf appsTableName (<["deleted" := now]> r) = Some k.
Proof.
  unfold keyOf, keyAttribute; simpl. by rewrite !lookup_insert_ne.
Qed.

(** C6. For a request that passes the gates of the handler (subscription in
    order, owner id and name present), the soft delete succeeds exactly when
    a record exists at (owner id, name) and carries no deletion timestamp;
    it then sets the timestamp to the current time.  When the record is
    absent or already soft-deleted the answer is 404 "App not found" and the
    store is unchanged.  A soft delete that follows one on the same key is
    always answered 404. *)
Theorem deleteApp_soft_delete req w :
  subscribed req -> appNameOf req ≠ "" -> adminIdOf req ≠ "" ->
  let a := adminIdOf req in
  let n := appNameOf req in
  let w' := snd (deleteApp req w) in
  ((exists r, appAt (store w) a n = Some r /\ r !! "deleted" = None)
   <-> fst (deleteApp req w) = Returned ended)
  /\ (forall r, appAt (store w) a n = Some r -> r !! "deleted" = None ->
        fst (deleteApp req w) = Returned ended
        /\ appAt (store w') a n = Some (<["deleted" := clock w]> r))
  /\ (appAt (store w) a n = None
      \/ (exists r, appAt (store w) a n = Some r /\ is_Some (r !! "deleted")) ->
        fst (deleteApp req w) = Returned notFound /\ store w' = store w)
  /\ (forall w2, store w2 = store w' ->
        fst (deleteApp req w2) = Returned notFound).
Proof.
  intros Hsub Hn Ha a n w'. subst a n w'.
  assert (Hact : forall r, appAt (store w) (adminIdOf req) (appNameOf req) = Some r ->
                   r !! "deleted" = None ->
                   fst (deleteApp req w) = Returned ended
                   /\ appAt (store (snd (deleteApp req w))) (adminIdOf req) (appNameOf req)
                      = Some (<["deleted" := clock w]> r)).
  { intros r Hr Hd. rewrite (deleteApp_active req w Hsub Hn Ha r Hr Hd).
    split; [done|]. unfold appAt. cbn [snd store].
    apply readKey_writeKey_Some, keyOf_apps_insert_deleted.
    by apply readKey_keyOf in Hr. }
  assert (Hnot : (forall r, appAt (store w) (adminIdOf req) (appNameOf req) = Some r ->
                            is_Some (r !! "deleted")) ->
                 fst (deleteApp req w) = Returned notFound
                 /\ store (snd (deleteApp req w)) = store w).
  { intros H. by rewrite (deleteApp_not_active req w Hsub Hn Ha H). }
  split; [|split; [exact Hact | split]].
  - split.
    + intros (r & Hr & Hd). by apply Hact in Hr as [-> _].
    + intros Hok.
      destruct (appAt (store w) (adminIdOf req) (appNameOf req)) as [r|] eqn:Hr.
      * destruct (r !! "deleted") as [d|] eqn:Hd; [|by eauto].
        destruct Hnot as [Hnf _]; [|by rewrite Hnf in Hok].
        intros r' [= <-]. by rewrite Hd.
      * destruct Hnot as [Hnf _]; [done | by rewrite Hnf in Hok].
  - intros [Hnone | (r & Hr & Hd)]; apply Hnot.
    + intros r. by rewrite Hnone.
    + intros r'. rewrite Hr. by intros [= <-].
  - intros w2 Hw2.
    rewrite (deleteApp_not_active req w2 Hsub Hn Ha); [done|].
    rewrite Hw2. intros r2 Hr2.
    destruct (appAt (store w) (adminIdOf req) (appNameOf req)) as [r|] eqn:Hr.
    + destruct (r !! "deleted") as [d|] eqn:Hd.
      * destruct Hnot as [_ Hst].
        { intros r'. intros [= <-]. by rewrite Hd. }
        rewrite Hst, Hr in Hr2. injection Hr2 as <-. by rewrite Hd.
      * destruct (Hact r eq_refl Hd) as [_ Hst]. rewrite Hst in Hr2.
        injection Hr2 as <-. by rewrite lookup_insert_eq.
    + destruct Hnot as [_ Hst]; [done|]. by rewrite Hst, Hr in Hr2.
Qed.

Lemma subscribed_shopRequest : subscribed shopRequest.
Proof. eexists. split; [reflexivity|]. split; reflexivity. Defined.

Lemma deleteApp_soft_delete_witness :
  fst (deleteApp shopRequest shopWorld) = Returned ended
  /\ fst (deleteApp shopRequest deletedShopWorld) = Returned notFound.
Proof.
  assert (Hn : appNameOf shopRequest ≠ "") by (vm_compute; discriminate).
  assert (Ha : adminIdOf shopRequest ≠ "") by (vm_compute; discriminate).
  destruct (deleteApp_soft_delete shopRequest shopWorld
              subscribed_shopRequest Hn Ha) as (Hiff & _ & _ & Hsnd).
  split.
  - apply Hiff. vm_compute. eexists. split; reflexivity.
  - apply Hsnd. reflexivity.
Defined.

(** ** permanentDeleteApp *)

Lemma itemCheck_existingApp db a n i :
  a ≠ "" -> n ≠ "" ->
  Store.itemCheck db (Delete (existingAppParams a n i)) = true
  <-> softDeletedWithId db a n i.
Proof.
  intros Ha Hn. unfold Store.itemCheck, softDeletedWithId, appAt.
  cbn [Store.itemKey Store.itemTable Store.itemCondition existingAppParams
       delete_TableName delete_Key delete_ConditionExpression].
  rewrite keyOf_app_key by done.
  destruct (readKey db appsTableName [a; n]) as [r|];
    cbn [evalOptCondition evalCondition attribute].
  - rewrite andb_true_iff, !bool_decide_eq_true. split.
    + intros [Hd Hi]. eauto.
    + by intros (r' & [= <-] & Hd & Hi).
  - rewrite bool_decide_eq_false_2 by (by intros [? ?]).
    split; [done | by intros (r & ? & _)].
Qed.

Lemma itemCheck_permanentDeletedApp db a n i :
  i ≠ "" ->
  Store.itemCheck db (Put (permanentDeletedAppParams a n i)) = true
  <-> tombstoneAt db i = None.
Proof.
  intros Hi. unfold Store.itemCheck, tombstoneAt.
  cbn [Store.itemKey Store.itemTable Store.itemCondition permanentDeletedAppParams
       put_TableName put_Item put_ConditionExpression].
  rewrite keyOf_tombstone by done.
  destruct (readKey db deletedAppsTableName [i]) as [r|] eqn:Hr;
    cbn [evalOptCondition evalCondition attribute].
  - apply readKey_keyOf, keyOf_deletedApps_inv in Hr. rewrite Hr.
    by rewrite bool_decide_eq_false_2.
  - by rewrite bool_decide_eq_true_2.
Qed.

(** What the handler's test [e.message.includes('ConditionalCheckFailed]')]
    sees: the reason of the last item of the transaction. *)
Lemma cancelled_put_failed okDelete :
  JsString.includes (aws_message (TransactionCanceledException [okDelete; false]))
                    "ConditionalCheckFailed]" = true.
Proof. by destruct okDelete; vm_compute. Qed.

Lemma cancelled_delete_only :
  JsString.includes (aws_message (TransactionCanceledException [false; true]))
                    "ConditionalCheckFailed]" = false.
Proof. by vm_compute. Qed.

(** The store accepts the keys of the two items of the transaction. *)
Lemma transaction_keys a n i :
  a ≠ "" -> n ≠ "" -> i ≠ "" ->
  forallb (fun it => bool_decide (is_Some (Store.itemKey it)))
          (TransactItems (transactionParams a n i)) = true.
Proof.
  intros Ha Hn Hi.
  cbn [transactionParams TransactItems forallb Store.itemKey existingAppParams
       permanentDeletedAppParams delete_TableName delete_Key put_TableName put_Item].
  rewrite keyOf_app_key, keyOf_tombstone by done.
  by rewrite !bool_decide_eq_true_2.
Qed.

Section PermanentDeleteApp.

Variables (req : request) (w : world).
Hypothesis Hsub : subscribed req.
Hypothesis HadminId : adminIdOf req ≠ "".
Hypothesis HappName : appNameOf req ≠ "".
Hypothesis HappId : appIdOf req ≠ "".

Lemma permanentDeleteApp_run :
  permanentDeleteApp req w
  = let w1 := ddbClient.record
                (CallTransactWrite
                   (transactionParams (adminIdOf req) (appNameOf req) (appIdOf req)))
                w in
    let okDelete :=
      Store.itemCheck (store w)
        (Delete (existingAppParams (adminIdOf req) (appNameOf req) (appIdOf req))) in
    let okPut :=
      Store.itemCheck (store w)
        (Put (permanentDeletedAppParams (adminIdOf req) (appNameOf req)
                                        (appIdOf req))) in
    if okDelete && okPut
    then (Returned ended,
          World (writeKey (writeKey (store w) appsTableName
                                    [adminIdOf req; appNameOf req] None)
                          deletedAppsTableName [appIdOf req]
                          (Some (tombstone (adminIdOf req) (appNameOf req)
                                           (appIdOf req))))
                (calls w1) (logs w1) (clock w1))
    else if okPut
    then (Returned (internalError "Failed to permanently delete app"),
          World (store w1) (calls w1)
                (logs w1 ++ [permanentDeleteLog (adminIdOf req) (appNameOf req)
                                                [false; true]])
                (clock w1))
    else (Returned conflict, w1).
Proof using Hsub HadminId HappName HappId.
  unfold permanentDeleteApp.
  apply subscriptionLapsed_false in Hsub. rewrite Hsub.
  fold (adminIdOf req) (appNameOf req) (appIdOf req).
  pose proof HappName as Hn'. pose proof HadminId as Ha'. pose proof HappId as Hi'.
  apply truthy_true in HappName, HadminId, HappId.
  rewrite HappName, HadminId, HappId.
  cbn [negb orb]. js_unfold. unfold Store.transactWrite, ddbClient.record.
  rewrite transaction_keys by done.
  cbn [store transactionParams TransactItems fmap list_fmap forallb id calls logs clock].
  cbv zeta.
  destruct (Store.itemCheck (store w) (Delete _)) eqn:Ed,
           (Store.itemCheck (store w) (Put _)) eqn:Ep; cbn [andb].
  - cbn [foldl]. unfold Store.itemApply.
    cbn [Store.itemKey existingAppParams permanentDeletedAppParams
         delete_TableName delete_Key put_TableName put_Item].
    rewrite keyOf_app_key, keyOf_tombstone by done. reflexivity.
  - cbn [exn_message].
    rewrite (cancelled_put_failed true). reflexivity.
  - cbn [exn_message].
    rewrite cancelled_delete_only. reflexivity.
  - cbn [exn_message].
    rewrite (cancelled_put_failed false). reflexivity.
Qed.

End PermanentDeleteApp.

(** C1, as stated, fails on a record that was never soft-deleted: the
    transaction aborts on the condition of its first item only, the message
    of the store ends with "[ConditionalCheckFailed, None]", and the handler
    answers 500, not 409. *)
Lemma permanentDeleteApp_abort_not_conflict :
  fst (permanentDeleteApp shopRequest shopWorld)
  = Returned (internalError "Failed to permanently delete app")
  /\ store (snd (permanentDeleteApp shopRequest shopWorld)) = store shopWorld
  /\ ~ AbortIsConflict shopRequest shopWorld.
Proof.
  split; [reflexivity|]. split; [reflexivity|].
  intros H. unfold AbortIsConflict in H.
  assert (Hab : ~ transactionCommits (store shopWorld) (adminIdOf shopRequest)
                    (appNameOf shopRequest) (appIdOf shopRequest)).
  { intros [(r & Hr & [d Hd] & _) _]. vm_compute in Hr.
    injection Hr as <-. vm_compute in Hd. discriminate Hd. }
  specialize (H Hab). vm_compute in H. discriminate H.
Qed.

(** C1, amended. A permanent-delete request that passes the gates of the
    handler issues exactly one store call, the transaction of two items:
    delete the record at (owner id, name) if it is soft-deleted and carries
    the supplied application id, put the tombstone at the application id if
    none is there.  When both conditions hold both writes happen and the
    answer is 200; otherwise the store is unchanged, and the answer is 409
    "App already permanently deleted" when a tombstone was there, and 500
    with a logged error when only the condition on the record failed. *)
Theorem permanentDeleteApp_atomic req w :
  subscribed req ->
  adminIdOf req ≠ "" -> appNameOf req ≠ "" -> appIdOf req ≠ "" ->
  let a := adminIdOf req in
  let n := appNameOf req in
  let i := appIdOf req in
  let r := fst (permanentDeleteApp req w) in
  let w' := snd (permanentDeleteApp req w) in
  calls w' = calls w ++ [CallTransactWrite (transactionParams a n i)]
  /\ (transactionCommits (store w) a n i ->
        r = Returned ended
        /\ store w' = writeKey (writeKey (store w) appsTableName [a; n] None)
                               deletedAppsTableName [i] (Some (tombstone a n i))
        /\ appAt (store w') a n = None
        /\ tombstoneAt (store w') i = Some (tombstone a n i)
        /\ logs w' = logs w)
  /\ (~ transactionCommits (store w) a n i ->
        store w' = store w
        /\ (is_Some (tombstoneAt (store w) i) ->
              r = Returned conflict /\ logs w' = logs w)
        /\ (tombstoneAt (store w) i = None ->
              r = Returned (internalError "Failed to permanently delete app")
              /\ logs w' = logs w ++ [permanentDeleteLog a n [false; true]])).
Proof.
  intros Hsub Ha Hn Hi a n i r w'. subst r w'.
  rewrite (permanentDeleteApp_run req w Hsub Ha Hn Hi). fold a n i. cbv zeta.
  pose proof (itemCheck_existingApp (store w) a n i Ha Hn) as Hd.
  pose proof (itemCheck_permanentDeletedApp (store w) a n i Hi) as Hp.
  unfold transactionCommits.
  destruct (Store.itemCheck (store w) (Delete (existingAppParams a n i))) eqn:Ed,
           (Store.itemCheck (store w) (Put (permanentDeletedAppParams a n i))) eqn:Ep;
    cbv zeta; cbn [andb fst snd store calls logs ddbClient.record].
  - split; [done|]. split; [|intros []; split; [by apply Hd | by apply Hp]].
    intros _. split; [done|]. split; [done|]. split; [|split; [|done]].
    + unfold appAt. rewrite readKey_writeKey_table by done.
      apply readKey_writeKey_None.
    + unfold tombstoneAt. by apply readKey_writeKey_Some, keyOf_tombstone.
  - split; [done|]. split.
    + intros [_ Ht]. apply Hp in Ht. discriminate Ht.
    + intros _. split; [done|]. split; [done|].
      intros Ht. apply Hp in Ht. discriminate Ht.
  - split; [done|]. split.
    + intros [Hs _]. apply Hd in Hs. discriminate Hs.
    + intros _. split; [done|]. split; [|done].
      intros [t Ht]. assert (tombstoneAt (store w) i = None) as Hnone by by apply Hp.
      rewrite Hnone in Ht. discriminate Ht.
  - split; [done|]. split.
    + intros [Hs _]. apply Hd in Hs. discriminate Hs.
    + intros _. split; [done|]. split; [done|].
      intros Ht. apply Hp in Ht. discriminate Ht.
Qed.

Lemma permanentDeleteApp_atomic_witness :
  fst (permanentDeleteApp shopRequest deletedShopWorld) = Returned ended
  /\ appAt (store retiredShopWorld) "adm1" "shop" = None
  /\ tombstoneAt (store retiredShopWorld) "id-1" = Some (tombstone "adm1" "shop" "id-1")
  /\ fst (permanentDeleteApp shopRequest retiredShopWorld) = Returned conflict
  /\ store (snd (permanentDeleteApp shopRequest retiredShopWorld))
     = store retiredShopWorld.
Proof.
  assert (Ha : adminIdOf shopRequest ≠ "") by (vm_compute; discriminate).
  assert (Hn : appNameOf shopRequest ≠ "") by (vm_compute; discriminate).
  assert (Hi : appIdOf shopRequest ≠ "") by (vm_compute; discriminate).
  destruct (permanentDeleteApp_atomic shopRequest deletedShopWorld
              subscribed_shopRequest Ha Hn Hi) as (_ & Hok & _).
  destruct (permanentDeleteApp_atomic shopRequest retiredShopWorld
              subscribed_shopRequest Ha Hn Hi) as (_ & _ & Hab).
  destruct Hok as (H1 & _ & H2 & H3 & _).
  { split; [|reflexivity]. vm_compute. eexists. split; [reflexivity|].
    split; [eexists|]; reflexivity. }
  destruct Hab as (H4 & H5 & _).
  { intros [_ Ht]. vm_compute in Ht. discriminate Ht. }
  destruct H5 as [H5 _]; [vm_compute; eexists; reflexivity|].
  repeat split; assumption.
Defined.

(** ** getAppByAppId *)

(** What a query with no filter returns: the items it examined. *)
Lemma query_items_unfiltered p db :
  query_FilterExpression p = None -> query_Select p ≠ Some COUNT ->
  Items (Store.query p db)
  = take (Store.pageBound p db)
         (drop (default 0 (query_ExclusiveStartKey p)) (Store.partition p db)).
Proof.
  intros Hf Hs. unfold Store.query. rewrite Hf. cbn [Items].
  destruct (query_Select p) as [[]|]; done.
Qed.

(** The records [getAppByAppId] is shown: the first page of those that
    carry the identifier. *)
Lemma appIdQuery_items appId db :
  Items (Store.query (appIdQuery appId) db)
  = take (Pos.to_nat (pageCap db))
         (List.filter (fun it => bool_decide (it !! "app-id" = Some appId))
                      (appsTable db)).
Proof. by rewrite query_items_unfiltered. Qed.

(** C7. [getAppByAppId] returns absence when the query on the app-id index
    yields no record and the record when it yields exactly one.  When the
    query yields more than one it logs at level fatal and throws: it does
    not return any of the records. *)
Theorem getAppByAppId_zero_one_many appId w :
  let found := Items (Store.query (appIdQuery appId) (store w)) in
  let r := fst (getAppByAppId appId w) in
  let w' := snd (getAppByAppId appId w) in
  (found = [] -> r = Returned None /\ logs w' = logs w)
  /\ (forall app, found = [app] -> r = Returned (Some app) /\ logs w' = logs w)
  /\ (1 < length found ->
        r = Thrown (ThrownError (tooManyApps appId))
        /\ logs w' = logs w ++ [(fatal, tooManyApps appId)]
        /\ forall app, r ≠ Returned app).
Proof.
  intros found r w'. subst r w'.
  unfold getAppByAppId. fold (appIdQuery appId). js_unfold.
  unfold ddbClient.record. cbn [store]. fold found.
  destruct found as [|app [|app' rest]]; cbn [length Nat.eqb Nat.ltb Nat.leb].
  - split; [done|]. split; [done|]. simpl. lia.
  - split; [done|]. split; [|simpl; lia]. by intros ? [= <-].
  - split; [done|]. split; [done|]. intros _. done.
Qed.

Lemma getAppByAppId_zero_one_many_witness :
  fst (getAppByAppId "id-1" corruptWorld) = Thrown (ThrownError (tooManyApps "id-1"))
  /\ logs (snd (getAppByAppId "id-1" corruptWorld)) = [(fatal, tooManyApps "id-1")]
  /\ fst (getAppByAppId "id-1" shopWorld)
     = Returned (Some (newApp "adm1" "shop" "id-1" sampleClock))
  /\ fst (getAppByAppId "id-1" emptyWorld) = Returned None.
Proof.
  destruct (getAppByAppId_zero_one_many "id-1" corruptWorld) as (_ & _ & Hmany).
  destruct (getAppByAppId_zero_one_many "id-1" shopWorld) as (_ & Hone & _).
  destruct (getAppByAppId_zero_one_many "id-1" emptyWorld) as (Hzero & _ & _).
  destruct Hmany as (H1 & H2 & _); [vm_compute; lia|].
  destruct (Hone (newApp "adm1" "shop" "id-1" sampleClock)) as [H3 _];
    [by vm_compute|].
  destruct Hzero as [H4 _]; [reflexivity|].
  repeat split; assumption.
Defined.

(** ** Pages of a query *)

Lemma partition_continueFrom p key db :
  Store.partition (continueFrom p key) db = Store.partition p db.
Proof. done. Qed.

Lemma pageBound_continueFrom p key db :
  Store.pageBound (continueFrom p key) db = Store.pageBound p db.
Proof. done. Qed.

Lemma pageBound_no_limit p db :
  query_Limit p = None -> Store.pageBound p db = Pos.to_nat (pageCap db).
Proof. unfold Store.pageBound. by intros ->. Qed.

Lemma lastEvaluatedKey_query p db :
  LastEvaluatedKey (Store.query p db)
  = let start := default 0 (query_ExclusiveStartKey p) in
    if (Store.pageBound p db <=? length (drop start (Store.partition p db)))%nat
    then Some (start + Store.pageBound p db)
    else None.
Proof. done. Qed.

(** The pages of a query cover the partition: put end to end they are the
    items of the partition, in order. *)
Lemma concat_pages fuel bound (rest : list item) :
  0 < bound -> length rest <= fuel ->
  take bound rest ++ concat (laterPages fuel bound rest) = rest.
Proof.
  intros Hb. revert rest. induction fuel as [|fuel IH]; intros rest Hlen.
  - destruct rest; [|simpl in Hlen; lia]. by rewrite take_nil.
  - cbn [laterPages]. destruct (bound <=? length rest)%nat eqn:E.
    + cbn [concat]. rewrite IH.
      * apply take_drop.
      * apply Nat.leb_le in E. rewrite length_drop. lia.
    + apply Nat.leb_gt in E. cbn [concat]. rewrite app_nil_r.
      apply take_ge. lia.
Qed.

(** The listing loop, run from the response to [p]: it returns, having
    pushed every later page as one element, and only queries. *)
Lemma whileLastEvaluatedKey_run fuel : forall p array w,
  query_FilterExpression p = None -> query_Select p ≠ Some COUNT ->
  0 < Store.pageBound p (store w) ->
  let rest := drop (default 0 (query_ExclusiveStartKey p))
                   (Store.partition p (store w)) in
  length rest <= fuel ->
  exists w',
    whileLastEvaluatedKey fuel p (Store.query p (store w)) array w
    = (Returned (array ++ ((fun page => JArray (itemsArray page))
                             <$> laterPages fuel (Store.pageBound p (store w)) rest)),
       w')
    /\ store w' = store w /\ logs w' = logs w
    /\ exists more, calls w' = calls w ++ more.
Proof.
  induction fuel as [|fuel IH]; intros p array w Hf Hs Hb rest Hlen.
  - assert (rest = []) as Hrest by (destruct rest; [done | simpl in Hlen; lia]).
    exists w. cbn [whileLastEvaluatedKey laterPages].
    rewrite lastEvaluatedKey_query. cbv zeta. fold rest. rewrite Hrest.
    cbn [length]. destruct (Nat.leb_spec (Store.pageBound p (store w)) 0); [lia|].
    cbn [fmap list_fmap]. rewrite app_nil_r.
    repeat split; try done. exists []. by rewrite app_nil_r.
  - cbn [whileLastEvaluatedKey laterPages].
    rewrite lastEvaluatedKey_query. cbv zeta. fold rest.
    destruct (Nat.leb_spec (Store.pageBound p (store w)) (length rest)) as [Hle|Hgt].
    + fold (continueFrom p (default 0 (query_ExclusiveStartKey p)
                            + Store.pageBound p (store w))).
      set (p' := continueFrom p _).
      unfold bind at 1. unfold ddbClient.query at 1.
      set (w1 := ddbClient.record (CallQuery p') w).
      assert (store w1 = store w) as Hst by done.
      destruct (IH p' (array ++ [JArray (itemsArray (Items (Store.query p' (store w1))))])
                  w1) as (w' & Hrun & Hst' & Hlg' & more & Hmore).
      * done.
      * done.
      * by rewrite Hst.
      * rewrite Hst.
        change (length (drop (default 0 (query_ExclusiveStartKey p)
                              + Store.pageBound p (store w))
                             (Store.partition p (store w))) <= fuel).
        rewrite <- drop_drop. fold rest. rewrite length_drop. lia.
      * exists w'. rewrite Hrun.
        split; [|split; [by rewrite Hst' | split; [by rewrite Hlg'|]]]; cycle 1.
        { exists (CallQuery p' :: more). rewrite Hmore.
          unfold w1, ddbClient.record. cbn [calls]. by rewrite <- app_assoc. }
        f_equal. rewrite Hst. rewrite query_items_unfiltered by done.
        change (Store.pageBound p' (store w)) with (Store.pageBound p (store w)).
        change (drop (default 0 (query_ExclusiveStartKey p')) (Store.partition p' (store w)))
          with (drop (default 0 (query_ExclusiveStartKey p)
                      + Store.pageBound p (store w))
                     (Store.partition p (store w))).
        rewrite <- !drop_drop. fold rest.
        cbn [fmap list_fmap]. by rewrite <- app_assoc.
    + exists w. cbn [fmap list_fmap]. rewrite app_nil_r.
      repeat split; try done. exists []. by rewrite app_nil_r.
Qed.

(** ** listApps and listAppUsers *)

Lemma partition_appsQuery adminId db :
  Store.partition (appsQuery adminId) db = appsOf db adminId.
Proof. done. Qed.

Lemma partition_usersQuery appId db :
  Store.partition (usersQuery appId) db = usersOf db appId.
Proof. done. Qed.

Lemma length_filter_le {A} (f : A -> bool) (l : list A) :
  length (List.filter f l) <= length l.
Proof.
  induction l as [|x l IH]; simpl; [lia|]. destruct (f x); simpl; lia.
Qed.

(** What [listApps] sends: the items of the first page, then every later
    page as one nested array. *)
Lemma listApps_pages fuel req w :
  length (appsTable (store w)) <= fuel ->
  let apps := appsOf (store w) (adminIdOf req) in
  let bound := Pos.to_nat (pageCap (store w)) in
  exists w',
    listApps fuel req w
    = (Returned (success (JArray (pushedPages (take bound apps)
                                              (laterPages fuel bound apps)))), w')
    /\ store w' = store w.
Proof.
  intros Hfuel apps bound. unfold listApps.
  fold (adminIdOf req) (appsQuery (adminIdOf req)).
  unfold tryCatch, bind at 1, ddbClient.query at 1.
  set (w1 := ddbClient.record (CallQuery (appsQuery (adminIdOf req))) w).
  assert (store w1 = store w) as Hst by done.
  destruct (whileLastEvaluatedKey_run fuel (appsQuery (adminIdOf req))
              (itemsArray (Items (Store.query (appsQuery (adminIdOf req)) (store w1))))
              w1) as (w' & Hrun & Hst' & _ & _).
  - done.
  - done.
  - rewrite pageBound_no_limit by done. lia.
  - rewrite Hst, partition_appsQuery. cbn [appsQuery query_ExclusiveStartKey
                                             from_option id drop].
    unfold appsOf. etrans; [apply length_filter_le | done].
  - exists w'. unfold bind. rewrite Hrun.
    unfold res_status_send, send, ret, success.
    split; [|by rewrite Hst'].
    rewrite Hst, query_items_unfiltered by done.
    rewrite pageBound_no_limit by done. done.
Qed.

(** While everything fits on one page, the listing is the flat sequence of
    the administrator's applications; with no application, the empty
    sequence. *)
Lemma listApps_single_page fuel req w :
  length (appsOf (store w) (adminIdOf req)) < Pos.to_nat (pageCap (store w)) ->
  length (appsTable (store w)) <= fuel ->
  fst (listApps fuel req w)
  = Returned (success (flatListing (appsOf (store w) (adminIdOf req)))).
Proof.
  intros Hlt Hfuel. destruct (listApps_pages fuel req w Hfuel) as (w' & -> & _).
  cbn [fst]. do 3 f_equal. unfold pushedPages.
  rewrite take_ge by lia.
  destruct fuel; cbn [laterPages]; [by rewrite app_nil_r|].
  destruct (Nat.leb_spec (Pos.to_nat (pageCap (store w)))
                         (length (appsOf (store w) (adminIdOf req)))); [lia|].
  by rewrite app_nil_r.
Qed.

Section ListAppUsersFacts.

Variable buildUserResult : jsval -> jsval.
Variables (fuel : nat) (req : request) (w : world).

(** Without an application at (owner id, name), or with a soft-deleted one,
    the answer is 404 and the lookup is the only store call. *)
Lemma listAppUsers_not_found :
  adminIdOf req ≠ "" -> appNameOf req ≠ "" ->
  (forall app, appAt (store w) (adminIdOf req) (appNameOf req) = Some app ->
               softDeleted app) ->
  listAppUsers buildUserResult fuel req w
  = (Returned notFound,
     ddbClient.record (CallGet (appKey (adminIdOf req) (appNameOf req))) w).
Proof.
  intros Ha Hn H. unfold listAppUsers. fold (adminIdOf req) (appNameOf req).
  unfold getApp. fold (appKey (adminIdOf req) (appNameOf req)).
  unfold tryCatch, bind, ddbClient.get, Store.get.
  cbn [appKey get_TableName get_Key]. rewrite keyOf_app_key by done.
  unfold ddbClient.record at 1. cbn [store].
  unfold appAt in H.
  destruct (readKey (store w) appsTableName [adminIdOf req; appNameOf req])
    as [app|]; [|done].
  destruct (H app eq_refl) as (ts & -> & Hts).
  cbn [truthyAttribute]. apply truthy_true in Hts. by rewrite Hts.
Qed.

(** The handler has no test of its own for a missing owner id or name:
    the lookup goes to the store with the key as it is, the store rejects a
    key with a missing or empty attribute, and the catch logs the error and
    answers 500. *)
Lemma listAppUsers_invalid_key :
  adminIdOf req = "" \/ appNameOf req = "" ->
  listAppUsers buildUserResult fuel req w
  = (Returned (internalError "Failed to list app users"),
     World (store w)
           (calls w ++ [CallGet (appKey (adminIdOf req) (appNameOf req))])
           (logs w ++ [listAppUsersLog (adminIdOf req) (appNameOf req)
                                       (ThrownAws ValidationException)])
           (clock w)).
Proof.
  intros H. unfold listAppUsers. fold (adminIdOf req) (appNameOf req).
  unfold getApp. fold (appKey (adminIdOf req) (appNameOf req)).
  unfold tryCatch, bind, ddbClient.get, Store.get.
  cbn [appKey get_TableName get_Key]. by rewrite keyOf_app_key_empty.
Qed.

(** With an active application, the users that carry its identifier are
    listed: the first page item by item, every later page as one nested
    array, each element passed through [buildUserResult]. *)
Lemma listAppUsers_active app :
  appAt (store w) (adminIdOf req) (appNameOf req) = Some app ->
  app !! "deleted" = None ->
  length (usersTable (store w)) <= fuel ->
  let users := usersOf (store w) (field app "app-id") in
  let bound := Pos.to_nat (pageCap (store w)) in
  exists w',
    listAppUsers buildUserResult fuel req w
    = (Returned (success (usersResult buildUserResult app
                            (pushedPages (take bound users)
                                         (laterPages fuel bound users)))), w')
    /\ store w' = store w
    /\ exists more,
         calls w' = calls w
                    ++ CallGet (appKey (adminIdOf req) (appNameOf req))
                    :: CallQuery (usersQuery (field app "app-id")) :: more.
Proof.
  intros Happ Hd Hfuel users bound.
  destruct (keyOf_apps_nonempty app (adminIdOf req) (appNameOf req)) as [Ha Hn].
  { by apply readKey_keyOf in Happ. }
  unfold listAppUsers. fold (adminIdOf req) (appNameOf req).
  unfold getApp. fold (appKey (adminIdOf req) (appNameOf req)).
  unfold tryCatch, bind at 1, ddbClient.get, Store.get.
  cbn [appKey get_TableName get_Key]. rewrite keyOf_app_key by done.
  unfold ddbClient.record at 1. cbn [store].
  unfold appAt in Happ. rewrite Happ, Hd. cbn [truthyAttribute].
  fold (usersQuery (field app "app-id")).
  set (q := usersQuery (field app "app-id")).
  set (w0 := ddbClient.record _ w).
  unfold bind at 1, ddbClient.query at 1.
  set (w1 := ddbClient.record (CallQuery q) w0).
  assert (store w1 = store w) as Hst by done.
  destruct (whileLastEvaluatedKey_run fuel q
              (itemsArray (Items (Store.query q (store w1)))) w1)
    as (w' & Hrun & Hst' & _ & more & Hmore).
  - done.
  - done.
  - rewrite pageBound_no_limit by done. lia.
  - rewrite Hst. unfold q. rewrite partition_usersQuery.
    cbn [usersQuery query_ExclusiveStartKey from_option id drop].
    unfold usersOf. etrans; [apply length_filter_le | done].
  - exists w'. unfold bind. rewrite Hrun.
    unfold res_status_send, send, ret, success, usersResult.
    split; [|split; [by rewrite Hst' |]].
    + rewrite Hst, query_items_unfiltered by done.
      rewrite pageBound_no_limit by done. done.
    + exists more. rewrite Hmore. unfold w1, w0, ddbClient.record. cbn [calls].
      by rewrite <- !app_assoc.
Qed.

End ListAppUsersFacts.

(** As soon as the first page is full, [listApps] does not send the flat
    sequence of the applications: a continuation page is pushed as one
    element, an array inside the array. *)
Lemma listApps_full_page_not_flat fuel req w :
  Pos.to_nat (pageCap (store w)) <= length (appsOf (store w) (adminIdOf req)) ->
  length (appsTable (store w)) <= fuel ->
  fst (listApps fuel req w)
  ≠ Returned (success (flatListing (appsOf (store w) (adminIdOf req)))).
Proof.
  intros Hfull Hfuel. destruct (listApps_pages fuel req w Hfuel) as (w' & -> & _).
  cbn [fst]. intros [= H].
  assert (0 < fuel) as Hpos.
  { pose proof (length_filter_le
                  (fun it : item => bool_decide (it !! "admin-id" = Some (adminIdOf req)))
                  (appsTable (store w))) as Hle.
    unfold appsOf in Hfull. lia. }
  destruct fuel as [|fuel]; [lia|]. cbn [laterPages] in H.
  apply Nat.leb_le in Hfull. rewrite Hfull in H.
  unfold pushedPages in H. cbn [fmap list_fmap] in H.
  set (page := take _ (drop _ _)) in H.
  assert (JArray (itemsArray page) ∈ itemsArray (appsOf (store w) (adminIdOf req)))
    as Hin.
  { rewrite <- H. apply elem_of_app. right. apply list_elem_of_here. }
  unfold itemsArray in Hin at 2. apply list_elem_of_fmap in Hin as (it & Hit & _).
  discriminate Hit.
Qed.

(** C3. The listings do not return one flat sequence once the matching
    records span more than one page.  In a store that answers two items a
    page, adm1 has the applications [appA; appB; appC]: [listApps] sends
    [appA, appB, [appC]], the third application inside a nested array, and
    not the flat sequence of the three.  Likewise [listAppUsers] passes to
    [buildUserResult] the two users of the first page and then the array of
    the second page. *)
Theorem listings_nest_continuation_pages :
  appsOf (store pagedWorld) "adm1" = [appA; appB; appC]
  /\ fst (listApps 3 appARequest pagedWorld)
     = Returned (success (JArray [JItem appA; JItem appB; JArray [JItem appC]]))
  /\ fst (listApps 3 appARequest pagedWorld)
     ≠ Returned (success (flatListing [appA; appB; appC]))
  /\ usersOf (store pagedWorld) "id-1" = [user1; user2; user3]
  /\ forall buildUserResult,
       fst (listAppUsers buildUserResult 3 appARequest pagedWorld)
       = Returned (success (JObject
           [("users", JArray [buildUserResult (JItem user1);
                              buildUserResult (JItem user2);
                              buildUserResult (JArray [JItem user3])]);
            ("appId", JString "id-1")])).
Proof.
  split; [by vm_compute|]. split; [by vm_compute|].
  split; [vm_compute; discriminate|]. split; [by vm_compute|].
  intros buildUserResult. by vm_compute.
Qed.

(** C8, as stated, fails when the request names no application: with the
    empty string for a name no record is stored at (owner id, name), yet the
    answer is not 404: the store rejects the key of the lookup, and the
    handler, which has no test for a missing name, logs an error and
    answers 500. *)
Lemma listAppUsers_unnamed_not_404 :
  appAt (store shopWorld) (adminIdOf unnamedRequest) (appNameOf unnamedRequest) = None
  /\ fst (listAppUsers id 0 unnamedRequest shopWorld)
     = Returned (internalError "Failed to list app users")
  /\ fst <$> logs (snd (listAppUsers id 0 unnamedRequest shopWorld)) = [error]
  /\ ~ AbsentIsNotFound id 0 unnamedRequest shopWorld.
Proof.
  split; [reflexivity|]. split; [reflexivity|]. split; [reflexivity|].
  intros H. specialize (H eq_refl). vm_compute in H. discriminate H.
Qed.

(** C8, amended. For a request that names an application (owner id and
    name present), [listAppUsers] first looks the application up.  When no
    record is there, or the record is soft-deleted, it answers 404 "App not
    found" and the lookup is the only call it made to the store.  When the
    record is active it goes on to query the users that carry the
    application's identifier, and lists them. *)
Theorem listAppUsers_resolves_application buildUserResult fuel req w :
  adminIdOf req ≠ "" -> appNameOf req ≠ "" ->
  let a := adminIdOf req in
  let n := appNameOf req in
  (appAt (store w) a n = None
   \/ (exists app, appAt (store w) a n = Some app /\ softDeleted app) ->
   listAppUsers buildUserResult fuel req w
   = (Returned notFound, ddbClient.record (CallGet (appKey a n)) w))
  /\ (forall app,
        appAt (store w) a n = Some app -> app !! "deleted" = None ->
        length (usersTable (store w)) <= fuel ->
        let users := usersOf (store w) (field app "app-id") in
        let bound := Pos.to_nat (pageCap (store w)) in
        exists w',
          listAppUsers buildUserResult fuel req w
          = (Returned (success (usersResult buildUserResult app
                                  (pushedPages (take bound users)
                                               (laterPages fuel bound users)))), w')
          /\ store w' = store w
          /\ exists more,
               calls w' = calls w
                          ++ CallGet (appKey a n)
                          :: CallQuery (usersQuery (field app "app-id")) :: more).
Proof.
  intros Ha Hn a n. subst a n. split.
  - intros H. apply listAppUsers_not_found; [done | done |].
    intros app Happ. destruct H as [H | (app' & H & Hdel)].
    + by rewrite H in Happ.
    + rewrite H in Happ. by injection Happ as <-.
  - intros app Happ Hd Hfuel. by apply listAppUsers_active.
Qed.

Lemma listAppUsers_resolves_application_witness :
  fst (listAppUsers id 3 shopRequest deletedShopWorld) = Returned notFound
  /\ fst (listAppUsers id 3 shopRequest emptyWorld) = Returned notFound
  /\ exists w',
       listAppUsers id 3 appARequest pagedWorld
       = (Returned (success (usersResult id appA
                               [JItem user1; JItem user2; JArray [JItem user3]])), w').
Proof.
  assert (Ha : adminIdOf shopRequest ≠ "") by (vm_compute; discriminate).
  assert (Hn : appNameOf shopRequest ≠ "") by (vm_compute; discriminate).
  assert (Ha' : adminIdOf appARequest ≠ "") by (vm_compute; discriminate).
  assert (Hn' : appNameOf appARequest ≠ "") by (vm_compute; discriminate).
  destruct (listAppUsers_resolves_application id 3 shopRequest deletedShopWorld Ha Hn)
    as [Hdeleted _].
  destruct (listAppUsers_resolves_application id 3 shopRequest emptyWorld Ha Hn)
    as [Habsent _].
  destruct (listAppUsers_resolves_application id 3 appARequest pagedWorld Ha' Hn')
    as [_ Hactive].
  split; [|split].
  - rewrite Hdeleted; [reflexivity|].
    right. vm_compute. eexists. split; [reflexivity|].
    eexists. split; [reflexivity | discriminate].
  - rewrite Habsent; [reflexivity|]. left. reflexivity.
  - destruct (Hactive appA) as (w' & Hrun & _); [reflexivity | reflexivity | |].
    + vm_compute. lia.
    + exists w'. exact Hrun.
Defined.

(** ** countNonDeletedAppUsers *)

Lemma countActive_app l1 l2 : countActive (l1 ++ l2) = countActive l1 + countActive l2.
Proof. unfold countActive. by rewrite List.filter_app, length_app. Qed.

Lemma countActive_take_drop n l :
  countActive (take n l) + countActive (drop n l) = countActive l.
Proof. by rewrite <- countActive_app, take_drop. Qed.

Lemma countActive_le l : countActive l <= length l.
Proof. apply length_filter_le. Qed.

(** The [Count] of a page of the counting query: the users that count
    among the items the page examined. *)
Lemma count_query p db :
  query_FilterExpression p = Some activeFilter ->
  Count (Store.query p db)
  = countActive (take (Store.pageBound p db)
                      (drop (default 0 (query_ExclusiveStartKey p))
                            (Store.partition p db))).
Proof. intros Hf. unfold Store.query. rewrite Hf. done. Qed.

Lemma capped_le limit n :
  truthyLimit limit = true -> capped limit n <= default 0 limit.
Proof. unfold capped. intros ->. lia. Qed.

(** The counting loop, run from the response to [p] with the count so far:
    it returns the count of the whole partition, capped at the limit. *)
Lemma whileBelowLimit_run limit fuel : forall p count w,
  query_FilterExpression p = Some activeFilter ->
  0 < Store.pageBound p (store w) ->
  let rest := drop (default 0 (query_ExclusiveStartKey p))
                   (Store.partition p (store w)) in
  length rest <= fuel ->
  (truthyLimit limit = true -> count <= default 0 limit) ->
  exists w',
    whileBelowLimit fuel limit p (Store.query p (store w)) count w
    = (Returned (capped limit
                   (count + countActive (drop (Store.pageBound p (store w)) rest))),
       w')
    /\ store w' = store w /\ logs w' = logs w.
Proof.
  induction fuel as [|fuel IH]; intros p count w Hf Hb rest Hlen Hcount.
  - assert (rest = []) as Hrest by (destruct rest; [done | simpl in Hlen; lia]).
    exists w. cbn [whileBelowLimit].
    rewrite lastEvaluatedKey_query. cbv zeta. fold rest. rewrite Hrest.
    cbn [length]. destruct (Nat.leb_spec (Store.pageBound p (store w)) 0); [lia|].
    rewrite drop_nil. unfold capped, countActive. cbn [List.filter length].
    unfold ret. repeat split; try done. f_equal. f_equal.
    destruct (truthyLimit limit); [specialize (Hcount eq_refl)|]; lia.
  - cbn [whileBelowLimit].
    rewrite lastEvaluatedKey_query. cbv zeta. fold rest.
    destruct (Nat.leb_spec (Store.pageBound p (store w)) (length rest)) as [Hle|Hgt].
    + destruct (negb (truthyLimit limit) || (count <? default 0 limit)) eqn:Hgo.
      * fold (continueFrom p (default 0 (query_ExclusiveStartKey p)
                              + Store.pageBound p (store w))).
        set (p' := continueFrom p _).
        unfold bind at 1. unfold ddbClient.query at 1.
        set (w1 := ddbClient.record (CallQuery p') w).
        assert (store w1 = store w) as Hst by done.
        set (count' := if truthyLimit limit then _ else _).
        destruct (IH p' count' w1) as (w' & Hrun & Hst' & Hlg').
        -- done.
        -- by rewrite Hst.
        -- rewrite Hst.
           change (length (drop (default 0 (query_ExclusiveStartKey p)
                                 + Store.pageBound p (store w))
                                (Store.partition p (store w))) <= fuel).
           rewrite <- drop_drop. fold rest. rewrite length_drop. lia.
        -- intros Ht. unfold count'. rewrite Ht. lia.
        -- exists w'. rewrite Hrun. split; [|by rewrite Hst', Hlg'].
           f_equal. f_equal. rewrite Hst.
           change (Store.pageBound p' (store w)) with (Store.pageBound p (store w)).
           change (drop (default 0 (query_ExclusiveStartKey p')) (Store.partition p' (store w)))
             with (drop (default 0 (query_ExclusiveStartKey p)
                         + Store.pageBound p (store w))
                        (Store.partition p (store w))).
           rewrite <- !drop_drop. fold rest.
           rewrite <- (countActive_take_drop (Store.pageBound p (store w))
                         (drop (Store.pageBound p (store w)) rest)).
           unfold count'. rewrite Hst, count_query by done.
           change (Store.pageBound p' (store w)) with (Store.pageBound p (store w)).
           change (drop (default 0 (query_ExclusiveStartKey p')) (Store.partition p' (store w)))
             with (drop (default 0 (query_ExclusiveStartKey p)
                         + Store.pageBound p (store w))
                        (Store.partition p (store w))).
           rewrite <- !drop_drop. fold rest.
           unfold capped. destruct (truthyLimit limit); lia.
      * exists w. unfold ret. repeat split; try done. f_equal. f_equal.
        apply orb_false_iff in Hgo as [Ht Hlt].
        apply negb_false_iff in Ht. apply Nat.ltb_ge in Hlt.
        specialize (Hcount Ht). unfold capped. rewrite Ht. lia.
    + exists w. unfold ret. repeat split; try done. f_equal. f_equal.
      rewrite drop_ge by lia. unfold capped, countActive. cbn [List.filter length].
      destruct (truthyLimit limit); [specialize (Hcount eq_refl)|]; lia.
Qed.

(** One turn of the counting loop under a limit [L]: while the count is
    below [L] and the last response carried a continuation key, the next
    page is asked for and its [Count] added, the sum capped at [L]; without
    a key, or with the count at [L], the loop ends. *)
Lemma whileBelowLimit_continues fuel L p response count key w :
  LastEvaluatedKey response = Some key -> count < L ->
  whileBelowLimit (S fuel) (Some L) p response count w
  = (let! usersResponse := ddbClient.query (continueFrom p key) in
     whileBelowLimit fuel (Some L) (continueFrom p key) usersResponse
                     (Nat.min L (count + Count usersResponse))) w.
Proof.
  intros Hkey Hlt. cbn [whileBelowLimit]. rewrite Hkey.
  destruct L as [|L]; [lia|]. cbn [truthyLimit negb orb from_option id].
  apply Nat.ltb_lt in Hlt. by rewrite Hlt.
Qed.

Lemma whileBelowLimit_stops fuel L p response count w :
  LastEvaluatedKey response = None \/ (0 < L /\ L <= count) ->
  whileBelowLimit fuel (Some L) p response count w = (Returned count, w).
Proof.
  intros H. destruct fuel; cbn [whileBelowLimit];
    (destruct (LastEvaluatedKey response); [|done]);
    (destruct H as [H | [HL Hle]]; [done|]);
    (destruct L as [|L]; [lia|]); cbn [truthyLimit negb orb from_option id];
    apply Nat.ltb_ge in Hle; by rewrite Hle.
Qed.

Lemma partition_countQuery appId limit db :
  Store.partition (countQuery appId limit) db = usersOf db appId.
Proof. done. Qed.

Lemma pageBound_countQuery appId limit db :
  0 < Store.pageBound (countQuery appId limit) db
  /\ (truthyLimit limit = true ->
      Store.pageBound (countQuery appId limit) db <= default 0 limit).
Proof.
  unfold Store.pageBound. cbn [countQuery query_Limit].
  destruct limit as [[|l]|]; cbn [truthyLimit from_option id]; split; try done; lia.
Qed.

(** What [countNonDeletedAppUsers] returns once the fuel covers the users
    table: the number of users of the application that count, capped at
    the limit when a truthy one is given. *)
Lemma countNonDeletedAppUsers_run fuel appId limit w :
  length (usersTable (store w)) <= fuel ->
  exists w',
    countNonDeletedAppUsers fuel appId limit w
    = (Returned (capped limit (activeUsers (store w) appId)), w')
    /\ store w' = store w /\ logs w' = logs w.
Proof.
  intros Hfuel. unfold countNonDeletedAppUsers.
  fold activeFilter. fold (countQuery appId limit).
  set (q := countQuery appId limit).
  unfold bind at 1, ddbClient.query at 1.
  set (w1 := ddbClient.record (CallQuery q) w).
  assert (store w1 = store w) as Hst by done.
  destruct (pageBound_countQuery appId limit (store w)) as [Hpos Hle].
  destruct (whileBelowLimit_run limit fuel q (Count (Store.query q (store w1))) w1)
    as (w' & Hrun & Hst' & Hlg').
  - done.
  - by rewrite Hst.
  - rewrite Hst. unfold q. rewrite partition_countQuery.
    cbn [countQuery query_ExclusiveStartKey from_option id drop].
    unfold usersOf. etrans; [apply length_filter_le | done].
  - intros Ht. rewrite Hst, count_query by done.
    etrans; [apply countActive_le|]. rewrite length_take.
    specialize (Hle Ht). fold q in Hle. lia.
  - exists w'. rewrite Hrun. split; [|by rewrite Hst', Hlg'].
    f_equal. f_equal. f_equal.
    rewrite Hst, count_query by done. unfold q.
    rewrite partition_countQuery.
    cbn [countQuery query_ExclusiveStartKey from_option id drop].
    apply countActive_take_drop.
Qed.

(** C2. With a positive limit L, [countNonDeletedAppUsers] goes from page
    to page while the count is below L and the store returns a continuation
    key, caps the count at L, and so returns the smaller of L and the number
    of users that count over all pages: exactly L as soon as L of them
    exist, however few each single page holds.  With the limit omitted it
    returns the number of all of them.  (Enough fuel: the loop runs at most
    once per user of the table.) *)
Theorem countNonDeletedAppUsers_limit fuel appId L w :
  0 < L -> length (usersTable (store w)) <= fuel ->
  fst (countNonDeletedAppUsers fuel appId (Some L) w)
  = Returned (Nat.min L (activeUsers (store w) appId))
  /\ (L <= activeUsers (store w) appId ->
      fst (countNonDeletedAppUsers fuel appId (Some L) w) = Returned L)
  /\ fst (countNonDeletedAppUsers fuel appId None w)
     = Returned (activeUsers (store w) appId)
  /\ store (snd (countNonDeletedAppUsers fuel appId (Some L) w)) = store w.
Proof.
  intros HL Hfuel.
  destruct (countNonDeletedAppUsers_run fuel appId (Some L) w Hfuel)
    as (w1 & -> & Hst & _).
  destruct (countNonDeletedAppUsers_run fuel appId None w Hfuel)
    as (w2 & -> & _ & _).
  cbn [fst snd]. unfold capped.
  destruct L as [|L]; [lia|]. cbn [truthyLimit from_option id].
  split; [done|]. split; [|done].
  intros Hle. f_equal. lia.
Qed.

Lemma countNonDeletedAppUsers_limit_witness :
  activeUsers (store countWorld) "id-1" = 6
  /\ fst (countNonDeletedAppUsers 9 "id-1" (Some 5) countWorld) = Returned 5
  /\ fst (countNonDeletedAppUsers 9 "id-1" None countWorld) = Returned 6
  /\ length (calls (snd (countNonDeletedAppUsers 9 "id-1" (Some 5) countWorld))) = 4.
Proof.
  assert (Hfuel : length (usersTable (store countWorld)) <= 9) by (vm_compute; lia).
  destruct (countNonDeletedAppUsers_limit 9 "id-1" 5 countWorld ltac:(lia) Hfuel)
    as (_ & Hfive & Hall & _).
  split; [reflexivity|]. split; [|split; [exact Hall | reflexivity]].
  apply Hfive. vm_compute. lia.
Defined.

(** A limit of 0 and an omitted limit run the same loop. *)
Lemma whileBelowLimit_zero fuel : forall p response count w,
  whileBelowLimit fuel (Some 0) p response count w
  = whileBelowLimit fuel None p response count w.
Proof.
  induction fuel as [|fuel IH]; intros p response count w; cbn [whileBelowLimit].
  - done.
  - destruct (LastEvaluatedKey response); [|done].
    cbn [truthyLimit negb orb]. unfold bind.
    destruct (ddbClient.query _ w) as [[r| |] w1]; [|done|done].
    apply IH.
Qed.

(** C10. A limit of 0 does not make [countNonDeletedAppUsers] return 0: it
    is treated as an omitted limit.  No [Limit] is set on the query, the
    loop runs to the last page, and the call returns the number of all the
    users of the application that count. *)
Theorem countNonDeletedAppUsers_zero_limit fuel appId w :
  query_Limit (countQuery appId (Some 0)) = None
  /\ countNonDeletedAppUsers fuel appId (Some 0) w
     = countNonDeletedAppUsers fuel appId None w
  /\ (length (usersTable (store w)) <= fuel ->
      fst (countNonDeletedAppUsers fuel appId (Some 0) w)
      = Returned (activeUsers (store w) appId)
      /\ (0 < activeUsers (store w) appId ->
          fst (countNonDeletedAppUsers fuel appId (Some 0) w) ≠ Returned 0)).
Proof.
  split; [done|]. split.
  - unfold countNonDeletedAppUsers. cbn [truthyLimit]. unfold bind.
    destruct (ddbClient.query _ w) as [[r| |] w1]; [|done|done].
    apply whileBelowLimit_zero.
  - intros Hfuel.
    destruct (countNonDeletedAppUsers_run fuel appId (Some 0) w Hfuel)
      as (w1 & -> & _ & _).
    cbn [fst]. unfold capped. cbn [truthyLimit]. split; [done|].
    intros Hpos [= H]. lia.
Qed.

Lemma countNonDeletedAppUsers_zero_limit_witness :
  fst (countNonDeletedAppUsers 9 "id-1" (Some 0) countWorld) = Returned 6
  /\ fst (countNonDeletedAppUsers 9 "id-1" (Some 0) countWorld) ≠ Returned 0.
Proof.
  destruct (countNonDeletedAppUsers_zero_limit 9 "id-1" countWorld)
    as (_ & _ & H).
  destruct H as [Hsix Hnot]; [vm_compute; lia|].
  split; [exact Hsix|]. apply Hnot. vm_compute. lia.
Defined.

(** * Further properties *)

(** ** createApp: the new record *)

Lemma getApp_run adminId appName w :
  adminId ≠ "" -> appName ≠ "" ->
  getApp adminId appName w
  = (Returned (appAt (store w) adminId appName),
     ddbClient.record (CallGet (appKey adminId appName)) w).
Proof.
  intros Ha Hn. unfold getApp. fold (appKey adminId appName).
  unfold ddbClient.get, Store.get. cbn [appKey get_TableName get_Key].
  by rewrite keyOf_app_key.
Qed.

(** A call that returns was made with an owner id and a name that is not
    blank, at a free key; it returned the record it built and stored. *)
Lemma createApp_returned_inv appName adminId appId w app w' :
  createApp appName adminId appId w = (Returned app, w') ->
  adminId ≠ "" /\ JsString.trim appName ≠ ""
  /\ appAt (store w) adminId (JsString.trim appName) = None
  /\ app = newApp adminId (JsString.trim appName) appId (clock w)
  /\ w' = World (writeKey (store w) appsTableName
                          [adminId; JsString.trim appName] (Some app))
                (calls w ++ [CallPut (createParams app)]) (logs w) (clock w).
Proof.
  intros H.
  destruct (decide (appName = "")) as [->|Hn].
  { rewrite createApp_missing in H; [done | by left]. }
  destruct (decide (adminId = "")) as [->|Ha].
  { rewrite createApp_missing in H; [done | by right]. }
  destruct (decide (JsString.trim appName = "")) as [Ht|Ht].
  { by rewrite createApp_blank in H. }
  destruct (appAt (store w) adminId (JsString.trim appName)) as [r|] eqn:Hr.
  { by erewrite createApp_existing in H. }
  rewrite createApp_fresh in H by done. cbv zeta in H.
  apply pair_equal_spec in H as [Happ <-]. injection Happ as <-.
  done.
Qed.

(** X1. Creating an application at a free key returns the record with the
    owner id, the trimmed name, the identifier and the clock reading as
    creation date, after exactly one put; the record is active, and a
    lookup by owner and trimmed name on the resulting store finds it. *)
Theorem createApp_then_getApp appName adminId appId w :
  adminId ≠ "" -> JsString.trim appName ≠ "" ->
  appAt (store w) adminId (JsString.trim appName) = None ->
  let app := newApp adminId (JsString.trim appName) appId (clock w) in
  let w' := snd (createApp appName adminId appId w) in
  fst (createApp appName adminId appId w) = Returned app
  /\ calls w' = calls w ++ [CallPut (createParams app)]
  /\ app !! "app-id" = Some appId
  /\ app !! "creation-date" = Some (clock w)
  /\ app !! "deleted" = None
  /\ forall w2, store w2 = store w' ->
       fst (getApp adminId (JsString.trim appName) w2) = Returned (Some app).
Proof.
  intros Ha Ht Hfree app w'. subst w'.
  rewrite (createApp_fresh appName adminId appId w Ha Ht Hfree). cbv zeta.
  cbn [fst snd calls store]. fold app.
  split; [done|]. split; [done|]. split; [done|]. split; [done|]. split; [done|].
  intros w2 Hw2. rewrite getApp_run by done. cbn [fst]. rewrite Hw2.
  unfold appAt. f_equal. apply readKey_writeKey_Some, keyOf_new_app; done.
Qed.

Lemma createApp_then_getApp_witness :
  fst (createApp " shop " "adm1" "id-1" emptyWorld)
  = Returned (newApp "adm1" "shop" "id-1" sampleClock)
  /\ fst (getApp "adm1" "shop" shopWorld)
     = Returned (Some (newApp "adm1" "shop" "id-1" sampleClock)).
Proof.
  destruct (createApp_then_getApp " shop " "adm1" "id-1" emptyWorld)
    as (Hret & _ & _ & _ & _ & Hget); [done | done | reflexivity |].
  split; [exact Hret|]. apply Hget. reflexivity.
Defined.

(** X2. A create call with an empty name or an empty owner id is refused
    with 400 "Missing required items" and touches nothing: no store call,
    no log line. *)
Theorem createApp_missing_items appName adminId appId w :
  appName = "" \/ adminId = "" ->
  createApp appName adminId appId w
  = (Thrown (ThrownObject (statusCodes Bad_Request) "Missing required items"), w).
Proof. apply createApp_missing. Qed.

Lemma createApp_missing_items_witness :
  createApp "" "adm1" "id-2" shopWorld
  = (Thrown (ThrownObject (statusCodes Bad_Request) "Missing required items"),
     shopWorld).
Proof. apply createApp_missing_items. left. reflexivity. Defined.

Lemma writeKey_apps_other_tables db k v :
  deletedAppsTable (writeKey db appsTableName k v) = deletedAppsTable db
  /\ usersTable (writeKey db appsTableName k v) = usersTable db.
Proof. done. Qed.

Lemma writeKey_deletedApps_other_tables db k v :
  appsTable (writeKey db deletedAppsTableName k v) = appsTable db
  /\ usersTable (writeKey db deletedAppsTableName k v) = usersTable db.
Proof. done. Qed.

(** What a create call can do to the store: nothing, or write its record
    at (owner id, trimmed name). *)
Lemma createApp_store appName adminId appId w :
  store (snd (createApp appName adminId appId w)) = store w
  \/ (adminId ≠ "" /\ JsString.trim appName ≠ ""
      /\ store (snd (createApp appName adminId appId w))
         = writeKey (store w) appsTableName [adminId; JsString.trim appName]
                    (Some (newApp adminId (JsString.trim appName) appId (clock w)))).
Proof.
  destruct (decide (appName = "")) as [->|Hn].
  { left. rewrite createApp_missing; [done | by left]. }
  destruct (decide (adminId = "")) as [->|Ha].
  { left. rewrite createApp_missing; [done | by right]. }
  destruct (decide (JsString.trim appName = "")) as [Ht|Ht].
  { left. by rewrite createApp_blank. }
  destruct (appAt (store w) adminId (JsString.trim appName)) as [r|] eqn:Hr.
  - left. by erewrite createApp_existing.
  - right. by rewrite createApp_fresh.
Qed.

(** X3. Whatever its outcome, a create call leaves alone every record of
    the applications table other than the one at (owner id, trimmed name),
    every tombstone and every user. *)
Theorem createApp_frame appName adminId appId w :
  let w' := snd (createApp appName adminId appId w) in
  (forall a n, (a, n) ≠ (adminId, JsString.trim appName) ->
               appAt (store w') a n = appAt (store w) a n)
  /\ deletedAppsTable (store w') = deletedAppsTable (store w)
  /\ usersTable (store w') = usersTable (store w).
Proof.
  intros w'. subst w'.
  destruct (createApp_store appName adminId appId w) as [-> | (Ha & Ht & ->)];
    [done|].
  split; [|done].
  intros a n Hne. unfold appAt. apply readKey_writeKey_key.
  - congruence.
  - intros it [= <-]. by apply keyOf_new_app.
Qed.

Lemma createApp_frame_witness :
  appAt (store (snd (createApp "store" "adm1" "id-2" shopWorld))) "adm1" "shop"
  = appAt (store shopWorld) "adm1" "shop".
Proof.
  destruct (createApp_frame "store" "adm1" "id-2" shopWorld) as [H _].
  apply H. discriminate.
Defined.

(** ** createAppController: the answers *)

(** X4. Past the subscription gate, the controller answers a create request
    in one of four ways: 400 "Missing required items" when the name or the
    owner id is missing, 400 "App name cannot be blank" when the name is
    white space only (the world untouched in both cases), 409 "App already
    exists" with the store unchanged when the trimmed name is taken, and
    otherwise 200 with the new record, built with the generated
    identifier. *)
Theorem createAppController_answers uuid req w :
  subscribed req ->
  let a := adminIdOf req in
  let n := appNameOf req in
  let answer := fst (createAppController uuid req w) in
  let w' := snd (createAppController uuid req w) in
  (n = "" \/ a = "" ->
     answer = Returned (Response (Some 400) (Some (JString "Missing required items")))
     /\ w' = w)
  /\ (n ≠ "" -> a ≠ "" -> JsString.trim n = "" ->
        answer = Returned (Response (Some 400)
                                    (Some (JString "App name cannot be blank")))
        /\ w' = w)
  /\ (a ≠ "" -> JsString.trim n ≠ "" ->
      is_Some (appAt (store w) a (JsString.trim n)) ->
        answer = Returned (Response (Some 409) (Some (JString "App already exists")))
        /\ store w' = store w)
  /\ (a ≠ "" -> JsString.trim n ≠ "" -> appAt (store w) a (JsString.trim n) = None ->
        answer = Returned (Response (Some 200)
                             (Some (JItem (newApp a (JsString.trim n) uuid (clock w)))))
        /\ appAt (store w') a (JsString.trim n)
           = Some (newApp a (JsString.trim n) uuid (clock w))).
Proof.
  intros Hsub a n answer w'. subst answer w'.
  unfold createAppController.
  apply subscriptionLapsed_false in Hsub. rewrite Hsub.
  fold (appNameOf req) (adminIdOf req). fold a n.
  unfold tryCatch, bind.
  split; [|split; [|split]].
  - intros H. by rewrite (createApp_missing n a uuid w H).
  - intros Hn Ha Ht. by rewrite (createApp_blank n a uuid w Hn Ha Ht).
  - intros Ha Ht [r Hr]. by rewrite (createApp_existing n a uuid w r Ha Ht Hr).
  - intros Ha Ht Hfree. rewrite (createApp_fresh n a uuid w Ha Ht Hfree).
    cbv zeta. unfold res_send, send, ret. cbn [fst snd store].
    split; [done|]. unfold appAt. apply readKey_writeKey_Some, keyOf_new_app; done.
Qed.

Lemma createAppController_answers_witness :
  fst (createAppController "id-2" shopRequest shopWorld)
  = Returned (Response (Some 409) (Some (JString "App already exists")))
  /\ fst (createAppController "id-1" paddedShopRequest emptyWorld)
     = Returned (Response (Some 200)
                          (Some (JItem (newApp "adm1" "shop" "id-1" sampleClock))))
  /\ fst (createAppController "id-1" emptyRequest emptyWorld)
     = Returned (Response (Some 400) (Some (JString "Missing required items"))).
Proof.
  destruct (createAppController_answers "id-2" shopRequest shopWorld
              subscribed_shopRequest) as (_ & _ & Htaken & _).
  assert (Hsub : subscribed paddedShopRequest).
  { eexists. split; [reflexivity|]. split; reflexivity. }
  destruct (createAppController_answers "id-1" paddedShopRequest emptyWorld Hsub)
    as (_ & _ & _ & Hfree).
  assert (Hsub' : subscribed emptyRequest).
  { eexists. split; [reflexivity|]. split; reflexivity. }
  destruct (createAppController_answers "id-1" emptyRequest emptyWorld Hsub')
    as (Hmissing & _).
  split; [|split].
  - apply Htaken; [by vm_compute | by vm_compute |]. vm_compute. eexists. reflexivity.
  - apply Hfree; [by vm_compute | by vm_compute | reflexivity].
  - apply Hmissing. left. reflexivity.
Defined.

(** ** deleteApp and permanentDeleteApp: missing fields *)

Lemma deleteApp_missing req w :
  subscribed req -> appNameOf req = "" \/ adminIdOf req = "" ->
  deleteApp req w
  = (Returned (Response (Some 400) (Some (JString "Missing required items"))), w).
Proof.
  intros Hsub H. apply subscriptionLapsed_false in Hsub.
  unfold deleteApp. rewrite Hsub. fold (appNameOf req) (adminIdOf req).
  destruct H as [-> | ->]; [done|]. by rewrite orb_true_r.
Qed.

Lemma permanentDeleteApp_missing req w :
  subscribed req ->
  appNameOf req = "" \/ appIdOf req = "" \/ adminIdOf req = "" ->
  permanentDeleteApp req w
  = (Returned (Response (Some 400) (Some (JString "Missing required items"))), w).
Proof.
  intros Hsub H. apply subscriptionLapsed_false in Hsub.
  unfold permanentDeleteApp. rewrite Hsub.
  fold (appNameOf req) (adminIdOf req) (appIdOf req).
  destruct H as [-> | [-> | ->]]; [done | | ]; by rewrite orb_true_r.
Qed.

(** X5. With the subscription in order, a soft delete that lacks the name
    or the owner id, and a permanent delete that lacks the name, the
    application id or the owner id, are answered 400 "Missing required
    items" before any store call: the world is unchanged. *)
Theorem delete_handlers_missing_items req w :
  subscribed req ->
  (appNameOf req = "" \/ adminIdOf req = "" ->
     deleteApp req w
     = (Returned (Response (Some 400) (Some (JString "Missing required items"))), w))
  /\ (appNameOf req = "" \/ appIdOf req = "" \/ adminIdOf req = "" ->
        permanentDeleteApp req w
        = (Returned (Response (Some 400) (Some (JString "Missing required items"))),
           w)).
Proof.
  intros Hsub. split.
  - by apply deleteApp_missing.
  - by apply permanentDeleteApp_missing.
Qed.

Lemma delete_handlers_missing_items_witness :
  deleteApp emptyRequest shopWorld
  = (Returned (Response (Some 400) (Some (JString "Missing required items"))), shopWorld)
  /\ permanentDeleteApp (adm1Request [("appName", "shop")]) shopWorld
     = (Returned (Response (Some 400) (Some (JString "Missing required items"))),
        shopWorld).
Proof.
  assert (Hsub : subscribed emptyRequest).
  { eexists. split; [reflexivity|]. split; reflexivity. }
  assert (Hsub' : subscribed (adm1Request [("appName", "shop")])).
  { eexists. split; [reflexivity|]. split; reflexivity. }
  destruct (delete_handlers_missing_items emptyRequest shopWorld Hsub) as [Hdel _].
  destruct (delete_handlers_missing_items (adm1Request [("appName", "shop")])
              shopWorld Hsub') as [_ Hperm].
  split.
  - apply Hdel. left. reflexivity.
  - apply Hperm. right. left. reflexivity.
Defined.

(** ** deleteApp: what a soft delete leaves alone *)

(** What a soft delete can do to the store: nothing, or set [deleted] on
    the active record at (owner id, name). *)
Lemma deleteApp_store req w :
  (store (snd (deleteApp req w)) = store w
   /\ fst (deleteApp req w) ≠ Returned ended)
  \/ exists r, appAt (store w) (adminIdOf req) (appNameOf req) = Some r
               /\ r !! "deleted" = None
               /\ subscribed req /\ adminIdOf req ≠ "" /\ appNameOf req ≠ ""
               /\ fst (deleteApp req w) = Returned ended
               /\ store (snd (deleteApp req w))
                  = writeKey (store w) appsTableName [adminIdOf req; appNameOf req]
                             (Some (<["deleted" := clock w]> r)).
Proof.
  destruct (subscriptionLapsed (locals_subscription req)) eqn:Hl.
  { left. unfold deleteApp. by rewrite Hl. }
  apply subscriptionLapsed_false in Hl.
  destruct (decide (appNameOf req = "")) as [Hn|Hn].
  { left. rewrite (deleteApp_missing req w Hl); [done | by left]. }
  destruct (decide (adminIdOf req = "")) as [Ha|Ha].
  { left. rewrite (deleteApp_missing req w Hl); [done | by right]. }
  destruct (appAt (store w) (adminIdOf req) (appNameOf req)) as [r|] eqn:Hr.
  - destruct (r !! "deleted") as [d|] eqn:Hd.
    + left. rewrite (deleteApp_not_active req w Hl Hn Ha); [done|].
      intros r'. rewrite Hr. intros [= <-]. by rewrite Hd.
    + right. exists r. rewrite (deleteApp_active req w Hl Hn Ha r Hr Hd). done.
  - left. rewrite (deleteApp_not_active req w Hl Hn Ha); [done|].
    intros r'. by rewrite Hr.
Qed.

(** X6. A soft delete never removes a record and never touches anything but
    the [deleted] attribute of the record it names: the records at the other
    keys, the tombstones and the users are unchanged, and the record at
    (owner id, name), if there was one, is still there with every other
    attribute (its identifier, its creation date) as before. *)
Theorem deleteApp_frame req w :
  let w' := snd (deleteApp req w) in
  (forall a n, (a, n) ≠ (adminIdOf req, appNameOf req) ->
               appAt (store w') a n = appAt (store w) a n)
  /\ deletedAppsTable (store w') = deletedAppsTable (store w)
  /\ usersTable (store w') = usersTable (store w)
  /\ (forall r, appAt (store w) (adminIdOf req) (appNameOf req) = Some r ->
        exists r', appAt (store w') (adminIdOf req) (appNameOf req) = Some r'
                   /\ forall attr, attr ≠ "deleted" -> r' !! attr = r !! attr).
Proof.
  intros w'. subst w'.
  destruct (deleteApp_store req w) as [[-> _] | (r & Hr & Hd & _ & _ & _ & _ & ->)].
  { split; [done|]. split; [done|]. split; [done|]. intros r Hr. by exists r. }
  assert (Hk : keyOf appsTableName (<["deleted" := clock w]> r)
               = Some [adminIdOf req; appNameOf req]).
  { apply keyOf_apps_insert_deleted. by apply readKey_keyOf in Hr. }
  split; [|split; [done | split; [done|]]].
  - intros a n Hne. unfold appAt. apply readKey_writeKey_key.
    + congruence.
    + by intros it [= <-].
  - intros r0 Hr0. rewrite Hr in Hr0. injection Hr0 as <-.
    exists (<["deleted" := clock w]> r). split.
    + unfold appAt. by apply readKey_writeKey_Some.
    + intros attr Hattr. by rewrite lookup_insert_ne.
Qed.

Lemma deleteApp_frame_witness :
  exists r', appAt (store deletedShopWorld) "adm1" "shop" = Some r'
             /\ r' !! "app-id" = Some "id-1".
Proof.
  destruct (deleteApp_frame shopRequest shopWorld) as (_ & _ & _ & H).
  destruct (H (newApp "adm1" "shop" "id-1" sampleClock) eq_refl) as (r' & Hr' & Hattr).
  exists r'. split; [exact Hr'|]. rewrite Hattr; [reflexivity | discriminate].
Defined.

(** ** permanentDeleteApp: when it goes through, and what it leaves alone *)

(** What a permanent delete can do to the store: nothing, or remove the
    record and put the tombstone, when the transaction commits. *)
Lemma permanentDeleteApp_store req w :
  (store (snd (permanentDeleteApp req w)) = store w
   /\ fst (permanentDeleteApp req w) ≠ Returned ended)
  \/ (subscribed req
      /\ (adminIdOf req ≠ "" /\ appNameOf req ≠ "" /\ appIdOf req ≠ "")
      /\ transactionCommits (store w) (adminIdOf req) (appNameOf req) (appIdOf req)
      /\ fst (permanentDeleteApp req w) = Returned ended
      /\ store (snd (permanentDeleteApp req w))
         = writeKey (writeKey (store w) appsTableName
                              [adminIdOf req; appNameOf req] None)
                    deletedAppsTableName [appIdOf req]
                    (Some (tombstone (adminIdOf req) (appNameOf req) (appIdOf req)))).
Proof.
  destruct (subscriptionLapsed (locals_subscription req)) eqn:Hl.
  { left. unfold permanentDeleteApp. by rewrite Hl. }
  apply subscriptionLapsed_false in Hl.
  destruct (decide (appNameOf req = "")) as [Hn|Hn].
  { left. rewrite (permanentDeleteApp_missing req w Hl); [done | by left]. }
  destruct (decide (appIdOf req = "")) as [Hi|Hi].
  { left. rewrite (permanentDeleteApp_missing req w Hl); [done | right; by left]. }
  destruct (decide (adminIdOf req = "")) as [Ha|Ha].
  { left. rewrite (permanentDeleteApp_missing req w Hl); [done | right; by right]. }
  rewrite (permanentDeleteApp_run req w Hl Ha Hn Hi). cbv zeta.
  pose proof (itemCheck_existingApp (store w) (adminIdOf req) (appNameOf req)
                (appIdOf req)) as Hd.
  pose proof (itemCheck_permanentDeletedApp (store w) (adminIdOf req)
                (appNameOf req) (appIdOf req)) as Hp.
  destruct (Store.itemCheck (store w) (Delete _)),
           (Store.itemCheck (store w) (Put _)); cbn [andb fst snd store];
    [right | left | left | left]; try done.
  split; [done|]. split; [done|]. split; [|done]. split; [by apply Hd | by apply Hp].
Qed.

(** X7. A permanent delete is answered 200 only when the record at (owner
    id, name) was soft-deleted, carried the supplied application id, and no
    tombstone existed for that id: an active record is never removed, it is
    still there afterwards and no tombstone has been written. *)
Theorem permanentDeleteApp_needs_soft_delete req w :
  (fst (permanentDeleteApp req w) = Returned ended ->
     transactionCommits (store w) (adminIdOf req) (appNameOf req) (appIdOf req))
  /\ (forall r, appAt (store w) (adminIdOf req) (appNameOf req) = Some r ->
        r !! "deleted" = None ->
        fst (permanentDeleteApp req w) ≠ Returned ended
        /\ store (snd (permanentDeleteApp req w)) = store w).
Proof.
  destruct (permanentDeleteApp_store req w) as [[Hst Hne] | (_ & _ & Hc & Hok & _)].
  - split; [done|]. by intros.
  - split; [done|]. intros r Hr Hd.
    destruct Hc as [(r' & Hr' & [d Hd'] & _) _].
    rewrite Hr in Hr'. injection Hr' as <-. by rewrite Hd in Hd'.
Qed.

Lemma permanentDeleteApp_needs_soft_delete_witness :
  fst (permanentDeleteApp shopRequest shopWorld) ≠ Returned ended
  /\ store (snd (permanentDeleteApp shopRequest shopWorld)) = store shopWorld.
Proof.
  destruct (permanentDeleteApp_needs_soft_delete shopRequest shopWorld) as [_ H].
  apply (H (newApp "adm1" "shop" "id-1" sampleClock)); reflexivity.
Defined.

(** X8. Whatever its outcome, a permanent delete leaves alone every record
    other than the one at (owner id, name), every tombstone other than the
    one of the supplied application id, and every user. *)
Theorem permanentDeleteApp_frame req w :
  let w' := snd (permanentDeleteApp req w) in
  (forall a n, (a, n) ≠ (adminIdOf req, appNameOf req) ->
               appAt (store w') a n = appAt (store w) a n)
  /\ (forall i, i ≠ appIdOf req ->
                tombstoneAt (store w') i = tombstoneAt (store w) i)
  /\ usersTable (store w') = usersTable (store w).
Proof.
  intros w'. subst w'.
  destruct (permanentDeleteApp_store req w)
    as [[-> _] | (_ & (_ & _ & Hi) & _ & _ & ->)]; [done|].
  split; [|split; [|done]].
  - intros a n Hne. unfold appAt.
    rewrite readKey_writeKey_table by done.
    apply readKey_writeKey_key; [congruence | done].
  - intros i Hne. unfold tombstoneAt.
    rewrite readKey_writeKey_key.
    + by rewrite readKey_writeKey_table.
    + congruence.
    + intros it [= <-]. by apply keyOf_tombstone.
Qed.

Lemma permanentDeleteApp_frame_witness :
  appAt (store (snd (permanentDeleteApp appARequest pagedWorld))) "adm1" "b"
  = appAt (store pagedWorld) "adm1" "b"
  /\ tombstoneAt (store retiredShopWorld) "id-2"
     = tombstoneAt (store deletedShopWorld) "id-2".
Proof.
  destruct (permanentDeleteApp_frame appARequest pagedWorld) as [Happ _].
  destruct (permanentDeleteApp_frame shopRequest deletedShopWorld) as (_ & Htomb & _).
  split.
  - apply Happ. discriminate.
  - apply Htomb. discriminate.
Defined.

(** ** Names: trimmed on creation, raw on deletion *)

Lemma trimEnd_idempotent s : JsString.trimEnd (JsString.trimEnd s) = JsString.trimEnd s.
Proof.
  induction s as [|c s IH]; [done|]. cbn [JsString.trimEnd].
  destruct (JsString.trimEnd s) as [|c' t] eqn:E.
  - destruct (JsString.isWhiteSpace c) eqn:Hc; [done|].
    cbn [JsString.trimEnd]. by rewrite Hc.
  - cbn [JsString.trimEnd] in *. by rewrite IH.
Qed.

Lemma trimEnd_head c s :
  JsString.isWhiteSpace c = false ->
  exists t, JsString.trimEnd (String c s) = String c t.
Proof.
  intros Hc. cbn [JsString.trimEnd].
  destruct (JsString.trimEnd s); [rewrite Hc|]; eauto.
Qed.

(** Trimming twice is trimming once: the names the module stores are
    their own trimmed form. *)
Lemma trim_idempotent s : JsString.trim (JsString.trim s) = JsString.trim s.
Proof.
  unfold JsString.trim at 2 3.
  destruct (trimStart_cons s) as [-> | (c & s' & -> & Hc)]; [done|].
  destruct (trimEnd_head c s' Hc) as [t Ht].
  unfold JsString.trim. rewrite Ht. cbn [JsString.trimStart]. rewrite Hc.
  rewrite <- Ht. apply trimEnd_idempotent.
Qed.

(** X9. Names are compared after trimming: once a create call has
    returned, a create call of the same owner whose name differs only by
    surrounding white space is refused with 409 "App already exists" and
    writes nothing, whatever identifier it brings. *)
Theorem createApp_names_collide_after_trim appName1 appName2 adminId appId1 appId2
    w app w1 :
  createApp appName1 adminId appId1 w = (Returned app, w1) ->
  JsString.trim appName2 = JsString.trim appName1 ->
  fst (createApp appName2 adminId appId2 w1)
  = Thrown (ThrownObject (statusCodes Conflict) "App already exists")
  /\ store (snd (createApp appName2 adminId appId2 w1)) = store w1.
Proof.
  intros H Heq. apply createApp_returned in H as (Ha & Ht & Hr).
  rewrite <- Heq in Ht, Hr.
  by rewrite (createApp_existing _ _ _ _ _ Ha Ht Hr).
Qed.

Lemma createApp_names_collide_after_trim_witness :
  fst (createApp "shop  " "adm1" "id-2" shopWorld)
  = Thrown (ThrownObject (statusCodes Conflict) "App already exists")
  /\ store (snd (createApp "shop  " "adm1" "id-2" shopWorld)) = store shopWorld.
Proof.
  apply (createApp_names_collide_after_trim " shop " "shop  " "adm1" "id-1" "id-2"
           emptyWorld (newApp "adm1" "shop" "id-1" sampleClock) shopWorld);
    reflexivity.
Defined.

(** X10. The delete handler does not trim: after an application was
    created from a name with surrounding white space, a soft delete that
    sends the same raw name looks under that raw name, finds nothing, and
    answers 404; the application stays active under its trimmed name. *)
Theorem deleteApp_uses_raw_name appId req w app w1 :
  subscribed req ->
  createApp (appNameOf req) (adminIdOf req) appId w = (Returned app, w1) ->
  JsString.trim (appNameOf req) ≠ appNameOf req ->
  appAt (store w) (adminIdOf req) (appNameOf req) = None ->
  fst (deleteApp req w1) = Returned notFound
  /\ appAt (store (snd (deleteApp req w1))) (adminIdOf req)
           (JsString.trim (appNameOf req)) = Some app
  /\ app !! "deleted" = None.
Proof.
  intros Hsub Hc Hneq Hraw.
  apply createApp_returned_inv in Hc as (Ha & Ht & Hfree & -> & ->).
  assert (Hn : appNameOf req ≠ "") by (by intros E; rewrite E in Ht).
  assert (Hraw1 : appAt (store (World
            (writeKey (store w) appsTableName
               [adminIdOf req; JsString.trim (appNameOf req)]
               (Some (newApp (adminIdOf req) (JsString.trim (appNameOf req))
                             appId (clock w))))
            (calls w ++ [CallPut (createParams
               (newApp (adminIdOf req) (JsString.trim (appNameOf req))
                       appId (clock w)))])
            (logs w) (clock w))) (adminIdOf req) (appNameOf req) = None).
  { cbn [store]. unfold appAt. rewrite readKey_writeKey_key; [done | congruence |].
    intros it [= <-]. by apply keyOf_new_app. }
  rewrite (deleteApp_not_active req _ Hsub Hn Ha).
  - cbn [fst snd store ddbClient.record]. split; [done|]. split; [|done].
    unfold appAt. apply readKey_writeKey_Some, keyOf_new_app; done.
  - intros r. by rewrite Hraw1.
Qed.

Lemma deleteApp_uses_raw_name_witness :
  fst (deleteApp paddedShopRequest shopWorld) = Returned notFound
  /\ appAt (store (snd (deleteApp paddedShopRequest shopWorld))) "adm1" "shop"
     = Some (newApp "adm1" "shop" "id-1" sampleClock).
Proof.
  assert (Hsub : subscribed paddedShopRequest).
  { eexists. split; [reflexivity|]. split; reflexivity. }
  destruct (deleteApp_uses_raw_name "id-1" paddedShopRequest emptyWorld
              (newApp "adm1" "shop" "id-1" sampleClock) shopWorld Hsub)
    as (H1 & H2 & _); [reflexivity | by vm_compute | reflexivity |].
  split; [exact H1 | exact H2].
Defined.

(** ** The life of a name *)

(** X11. A soft-deleted name stays taken, a permanently deleted one is free
    again: after a soft delete that succeeded, a create call for the same
    owner and (trimmed) name is refused with 409; after a permanent delete
    that succeeded, the same create call returns a new, active record. *)
Theorem name_taken_until_permanent_delete req appId w :
  JsString.trim (appNameOf req) = appNameOf req ->
  let a := adminIdOf req in
  let n := appNameOf req in
  (fst (deleteApp req w) = Returned ended ->
     fst (createApp n a appId (snd (deleteApp req w)))
     = Thrown (ThrownObject (statusCodes Conflict) "App already exists"))
  /\ (fst (permanentDeleteApp req w) = Returned ended ->
        fst (createApp n a appId (snd (permanentDeleteApp req w)))
        = Returned (newApp a n appId (clock w))).
Proof.
  intros Htrim a n. subst a n. split.
  - intros Hok.
    destruct (deleteApp_store req w)
      as [[_ Hne] | (r & Hr & Hd & _ & Ha & Hn & _ & Hst)]; [done|].
    assert (Ht : JsString.trim (appNameOf req) ≠ "") by by rewrite Htrim.
    erewrite createApp_existing; [done | done | done |].
    rewrite Hst, Htrim. unfold appAt.
    apply readKey_writeKey_Some, keyOf_apps_insert_deleted.
    by apply readKey_keyOf in Hr.
  - intros Hok.
    destruct (permanentDeleteApp_store req w)
      as [[_ Hne] | (Hsub & (Ha & Hn & Hi) & _ & _ & Hst)]; [done|].
    assert (Ht : JsString.trim (appNameOf req) ≠ "") by by rewrite Htrim.
    assert (Hclock : clock (snd (permanentDeleteApp req w)) = clock w).
    { rewrite (permanentDeleteApp_run req w Hsub Ha Hn Hi). cbv zeta.
      by destruct (Store.itemCheck _ _), (Store.itemCheck _ _). }
    rewrite createApp_fresh; [|done|done|].
    + cbv zeta. cbn [fst]. by rewrite Hclock, Htrim.
    + rewrite Hst, Htrim. unfold appAt.
      rewrite readKey_writeKey_table by done. apply readKey_writeKey_None.
Qed.

Lemma name_taken_until_permanent_delete_witness :
  fst (createApp "shop" "adm1" "id-2" deletedShopWorld)
  = Thrown (ThrownObject (statusCodes Conflict) "App already exists")
  /\ fst (createApp "shop" "adm1" "id-2" retiredShopWorld)
     = Returned (newApp "adm1" "shop" "id-2" sampleClock).
Proof.
  destruct (name_taken_until_permanent_delete shopRequest "id-2" shopWorld)
    as [Hsoft _]; [reflexivity|].
  destruct (name_taken_until_permanent_delete shopRequest "id-2" deletedShopWorld)
    as [_ Hhard]; [reflexivity|].
  split.
  - apply Hsoft. reflexivity.
  - apply Hhard. reflexivity.
Defined.

(** ** Identifiers *)

Lemma writeKey_fresh db t k it :
  readKey db t k = None ->
  tableItems (writeKey db t k (Some it)) t = tableItems db t ++ [it].
Proof.
  intros H. unfold writeKey. rewrite tableItems_set_eq.
  apply find_none_existsb in H. by rewrite H.
Qed.

Lemma filter_nil_Forall {A} (f : A -> bool) (l : list A) :
  Forall (fun x => f x = false) l -> List.filter f l = [].
Proof.
  induction 1 as [|x l Hx _ IH]; [done|]. simpl. by rewrite Hx.
Qed.

Lemma getAppByAppId_one appId w app :
  Items (Store.query (appIdQuery appId) (store w)) = [app] ->
  getAppByAppId appId w
  = (Returned (Some app), ddbClient.record (CallQuery (appIdQuery appId)) w).
Proof.
  intros H. unfold getAppByAppId. fold (appIdQuery appId). js_unfold.
  unfold ddbClient.record at 1 2 3. cbn [store]. by rewrite H.
Qed.

Lemma getAppByAppId_many appId w app app' rest :
  Items (Store.query (appIdQuery appId) (store w)) = app :: app' :: rest ->
  fst (getAppByAppId appId w) = Thrown (ThrownError (tooManyApps appId))
  /\ logs (snd (getAppByAppId appId w)) = logs w ++ [(fatal, tooManyApps appId)].
Proof.
  intros H. unfold getAppByAppId. fold (appIdQuery appId). js_unfold.
  unfold ddbClient.record. cbn [store]. by rewrite H.
Qed.

(** The records of the applications table that carry an identifier, once a
    record with that identifier has been stored at a free key. *)
Lemma appId_records_after_create db k app appId :
  readKey db appsTableName k = None ->
  app !! "app-id" = Some appId ->
  List.filter (fun it : item => bool_decide (it !! "app-id" = Some appId))
              (appsTable (writeKey db appsTableName k (Some app)))
  = List.filter (fun it : item => bool_decide (it !! "app-id" = Some appId))
                (appsTable db) ++ [app].
Proof.
  intros Hfree Hid.
  change (appsTable (writeKey db appsTableName k (Some app)))
    with (tableItems (writeKey db appsTableName k (Some app)) appsTableName).
  rewrite writeKey_fresh by done. rewrite List.filter_app. f_equal.
  cbn [List.filter]. by rewrite bool_decide_eq_true_2.
Qed.

(** X12. An application created under an identifier that no record carried
    is found by that identifier: the lookup on the app-id index returns the
    record the create call returned. *)
Theorem createApp_then_getAppByAppId appName adminId appId w app w1 :
  createApp appName adminId appId w = (Returned app, w1) ->
  Forall (fun it : item => it !! "app-id" ≠ Some appId) (appsTable (store w)) ->
  forall w2, store w2 = store w1 ->
    fst (getAppByAppId appId w2) = Returned (Some app).
Proof.
  intros Hc Hnone w2 Hw2.
  apply createApp_returned_inv in Hc as (Ha & Ht & Hfree & Happ & ->).
  rewrite (getAppByAppId_one appId w2 app); [done|].
  rewrite appIdQuery_items, Hw2. cbn [store].
  rewrite pageCap_writeKey.
  rewrite (appId_records_after_create _ _ _ appId Hfree) by by rewrite Happ.
  rewrite filter_nil_Forall.
  - rewrite app_nil_l. apply take_ge. cbn [length]. lia.
  - eapply Forall_impl; [exact Hnone|]. intros it Hit.
    by apply bool_decide_eq_false.
Qed.

Lemma createApp_then_getAppByAppId_witness :
  fst (getAppByAppId "id-1" shopWorld)
  = Returned (Some (newApp "adm1" "shop" "id-1" sampleClock)).
Proof.
  apply (createApp_then_getAppByAppId " shop " "adm1" "id-1" emptyWorld
           (newApp "adm1" "shop" "id-1" sampleClock) shopWorld);
    [reflexivity | constructor | reflexivity].
Defined.

(** X13. A create call does not ask whether its identifier is in use: two
    create calls under the same identifier both return when their keys
    differ, and from then on the lookup by that identifier logs at level
    fatal and throws (the store answering at least two items a page). *)
Theorem createApp_accepts_used_identifier appName1 adminId1 appName2 adminId2 appId
    w app1 w1 app2 w2 :
  createApp appName1 adminId1 appId w = (Returned app1, w1) ->
  createApp appName2 adminId2 appId w1 = (Returned app2, w2) ->
  Forall (fun it : item => it !! "app-id" ≠ Some appId) (appsTable (store w)) ->
  2 <= Pos.to_nat (pageCap (store w)) ->
  fst (getAppByAppId appId w2) = Thrown (ThrownError (tooManyApps appId))
  /\ logs (snd (getAppByAppId appId w2)) = logs w2 ++ [(fatal, tooManyApps appId)].
Proof.
  intros Hc1 Hc2 Hnone Hcap.
  apply createApp_returned_inv in Hc1 as (_ & _ & Hfree1 & Happ1 & ->).
  apply createApp_returned_inv in Hc2 as (_ & _ & Hfree2 & Happ2 & ->).
  cbn [store clock] in *.
  apply (getAppByAppId_many appId _ app1 app2 []).
  rewrite appIdQuery_items. cbn [store].
  rewrite !pageCap_writeKey.
  rewrite (appId_records_after_create _ _ _ appId Hfree2) by by rewrite Happ2.
  rewrite (appId_records_after_create _ _ _ appId Hfree1) by by rewrite Happ1.
  rewrite filter_nil_Forall.
  - rewrite app_nil_l. apply take_ge. cbn [length app]. lia.
  - eapply Forall_impl; [exact Hnone|]. intros it Hit.
    by apply bool_decide_eq_false.
Qed.

Lemma createApp_accepts_used_identifier_witness :
  fst (createApp "store" "adm2" "id-1" shopWorld)
  = Returned (newApp "adm2" "store" "id-1" sampleClock)
  /\ fst (getAppByAppId "id-1" (snd (createApp "store" "adm2" "id-1" shopWorld)))
     = Thrown (ThrownError (tooManyApps "id-1")).
Proof.
  split; [reflexivity|].
  eapply (createApp_accepts_used_identifier " shop " "adm1" "store" "adm2" "id-1"
            emptyWorld (newApp "adm1" "shop" "id-1" sampleClock) shopWorld
            (newApp "adm2" "store" "id-1" sampleClock));
    [reflexivity | reflexivity | constructor | vm_compute; lia].
Defined.

(** ** Listings: nothing lost, nothing added *)

Lemma spliced_itemsArray (l : list item) : spliced (itemsArray l) = itemsArray l.
Proof.
  unfold spliced, itemsArray. induction l as [|x l IH]; [done|].
  cbn [fmap list_fmap concat]. cbn [fmap list_fmap] in IH. by rewrite IH.
Qed.

Lemma spliced_app l1 l2 : spliced (l1 ++ l2) = spliced l1 ++ spliced l2.
Proof. unfold spliced. by rewrite fmap_app, concat_app. Qed.

Lemma spliced_pushedPages first later :
  spliced (pushedPages first later) = itemsArray (first ++ concat later).
Proof.
  unfold pushedPages. rewrite spliced_app, spliced_itemsArray.
  unfold itemsArray at 3. rewrite fmap_app. f_equal.
  induction later as [|page later IH]; [done|].
  cbn [fmap list_fmap concat]. rewrite fmap_app.
  unfold spliced in *. cbn [fmap list_fmap concat]. by rewrite IH.
Qed.

(** X14. Nested as its later pages are, the array [listApps] sends holds
    every application of the administrator exactly once and in table order,
    and nothing else: with the nested arrays spliced in, it is the sequence
    of the records whose admin-id is the caller's, soft-deleted ones
    included.  The store is left as it was. *)
Theorem listApps_lists_every_app fuel req w :
  length (appsTable (store w)) <= fuel ->
  exists array w',
    listApps fuel req w = (Returned (success (JArray array)), w')
    /\ spliced array = itemsArray (appsOf (store w) (adminIdOf req))
    /\ store w' = store w.
Proof.
  intros Hfuel. destruct (listApps_pages fuel req w Hfuel) as (w' & Hrun & Hst).
  eexists _, w'. split; [exact Hrun|]. split; [|exact Hst].
  rewrite spliced_pushedPages. f_equal. apply concat_pages; [lia|].
  unfold appsOf. etrans; [apply length_filter_le | done].
Qed.

Lemma listApps_lists_every_app_witness :
  exists array w',
    listApps 3 appARequest pagedWorld = (Returned (success (JArray array)), w')
    /\ spliced array = [JItem appA; JItem appB; JItem appC].
Proof.
  destruct (listApps_lists_every_app 3 appARequest pagedWorld)
    as (array & w' & Hrun & Hsp & _); [vm_compute; lia|].
  exists array, w'. split; [exact Hrun|]. rewrite Hsp. reflexivity.
Defined.

(** X15. While the administrator's applications are fewer than a page
    holds, [listApps] answers 200 with their flat sequence, in table order;
    an administrator without applications gets the empty array, not an
    error. *)
Theorem listApps_one_page fuel req w :
  length (appsOf (store w) (adminIdOf req)) < Pos.to_nat (pageCap (store w)) ->
  length (appsTable (store w)) <= fuel ->
  fst (listApps fuel req w)
  = Returned (success (JArray (itemsArray (appsOf (store w) (adminIdOf req)))))
  /\ (appsOf (store w) (adminIdOf req) = [] ->
      fst (listApps fuel req w) = Returned (success (JArray []))).
Proof.
  intros Hlt Hfuel. rewrite (listApps_single_page fuel req w Hlt Hfuel).
  split; [done|]. by intros ->.
Qed.

Lemma listApps_one_page_witness :
  fst (listApps 1 shopRequest shopWorld)
  = Returned (success (JArray [JItem (newApp "adm1" "shop" "id-1" sampleClock)]))
  /\ fst (listApps 0 shopRequest emptyWorld) = Returned (success (JArray [])).
Proof.
  destruct (listApps_one_page 1 shopRequest shopWorld) as [Hone _];
    [vm_compute; lia | vm_compute; lia |].
  destruct (listApps_one_page 0 shopRequest emptyWorld) as [_ Hnone];
    [vm_compute; lia | vm_compute; lia |].
  split; [exact Hone | apply Hnone; reflexivity].
Defined.

(** X16. For an active application, what [listAppUsers] hands to
    [buildUserResult], with the nested arrays spliced in, is the sequence
    of the users that carry the application's identifier, each once and in
    index order, deleted users included. *)
Theorem listAppUsers_lists_every_user buildUserResult fuel req w app :
  appAt (store w) (adminIdOf req) (appNameOf req) = Some app ->
  app !! "deleted" = None ->
  length (usersTable (store w)) <= fuel ->
  exists users w',
    listAppUsers buildUserResult fuel req w
    = (Returned (success (usersResult buildUserResult app users)), w')
    /\ spliced users = itemsArray (usersOf (store w) (field app "app-id"))
    /\ store w' = store w.
Proof.
  intros Happ Hd Hfuel.
  destruct (listAppUsers_active buildUserResult fuel req w app Happ Hd Hfuel)
    as (w' & Hrun & Hst & _).
  eexists _, w'. split; [exact Hrun|]. split; [|exact Hst].
  rewrite spliced_pushedPages. f_equal. apply concat_pages; [lia|].
  unfold usersOf. etrans; [apply length_filter_le | done].
Qed.

Lemma listAppUsers_lists_every_user_witness :
  exists users w',
    listAppUsers id 3 appARequest pagedWorld
    = (Returned (success (usersResult id appA users)), w')
    /\ spliced users = [JItem user1; JItem user2; JItem user3].
Proof.
  destruct (listAppUsers_lists_every_user id 3 appARequest pagedWorld appA)
    as (users & w' & Hrun & Hsp & _); [reflexivity | reflexivity | vm_compute; lia |].
  exists users, w'. split; [exact Hrun|]. rewrite Hsp. reflexivity.
Defined.

(** ** The read paths leave the store alone *)

Lemma readOnly_pure {A} (m : js A) :
  (forall w, snd (m w) = w) -> readOnly m.
Proof.
  intros H w. rewrite H. split; [done|]. exists []. by rewrite app_nil_r.
Qed.

Lemma readOnly_logged {A} (m : js A) :
  (forall w, store (snd (m w)) = store w /\ calls (snd (m w)) = calls w) ->
  readOnly m.
Proof.
  intros H w. destruct (H w) as [Hst Hc]. split; [done|].
  exists []. by rewrite app_nil_r.
Qed.

Lemma readOnly_bind {A B} (m : js A) (k : A -> js B) :
  readOnly m -> (forall a, readOnly (k a)) -> readOnly (bind m k).
Proof.
  intros Hm Hk w. unfold bind. specialize (Hm w).
  destruct (m w) as [[a|e|] w1]; cbn [snd] in *; [|done|done].
  destruct Hm as (Hst & issued & Hc & Hr).
  destruct (Hk a w1) as (Hst' & issued' & Hc' & Hr').
  split; [by rewrite Hst'|]. exists (issued ++ issued').
  split; [by rewrite Hc', Hc, app_assoc | by apply Forall_app].
Qed.

Lemma readOnly_tryCatch {A} (m : js A) (h : exn -> js A) :
  readOnly m -> (forall e, readOnly (h e)) -> readOnly (tryCatch m h).
Proof.
  intros Hm Hh w. unfold tryCatch. specialize (Hm w).
  destruct (m w) as [[a|e|] w1]; cbn [snd] in *; [done| |done].
  destruct Hm as (Hst & issued & Hc & Hr).
  destruct (Hh e w1) as (Hst' & issued' & Hc' & Hr').
  split; [by rewrite Hst'|]. exists (issued ++ issued').
  split; [by rewrite Hc', Hc, app_assoc | by apply Forall_app].
Qed.

Lemma readOnly_query p : readOnly (ddbClient.query p).
Proof.
  intros w. split; [done|]. exists [CallQuery p]. split; [done|].
  by apply Forall_singleton.
Qed.

Lemma readOnly_get p : readOnly (ddbClient.get p).
Proof.
  intros w. unfold ddbClient.get.
  destruct (Store.get _ _); (split; [done|]); exists [CallGet p];
    (split; [done|]); by apply Forall_singleton.
Qed.

Lemma readOnly_log l msg : readOnly (logger.log l msg).
Proof. by apply readOnly_logged. Qed.

Lemma readOnly_send st v : readOnly (send st v).
Proof. by apply readOnly_pure. Qed.

Lemma readOnly_whileLastEvaluatedKey fuel : forall p response array,
  readOnly (whileLastEvaluatedKey fuel p response array).
Proof.
  induction fuel as [|fuel IH]; intros p response array;
    cbn [whileLastEvaluatedKey]; destruct (LastEvaluatedKey response);
    try (by apply readOnly_pure).
  apply readOnly_bind; [apply readOnly_query|]. intros r. apply IH.
Qed.

Lemma readOnly_whileBelowLimit fuel limit : forall p response count,
  readOnly (whileBelowLimit fuel limit p response count).
Proof.
  induction fuel as [|fuel IH]; intros p response count;
    cbn [whileBelowLimit]; destruct (LastEvaluatedKey response);
    try (by apply readOnly_pure);
    destruct (negb (truthyLimit limit) || (count <? default 0 limit));
    try (by apply readOnly_pure).
  apply readOnly_bind; [apply readOnly_query|]. intros r. apply IH.
Qed.

(** X17. The read paths never write: [listApps], [getApp], [getAppByAppId],
    [listAppUsers] and [countNonDeletedAppUsers] issue only gets and
    queries and leave the store exactly as they found it, whether they
    return, throw, or run out of fuel. *)
Theorem read_paths_only_read buildUserResult fuel req adminId appName appId limit :
  readOnly (listApps fuel req)
  /\ readOnly (getApp adminId appName)
  /\ readOnly (getAppByAppId appId)
  /\ readOnly (listAppUsers buildUserResult fuel req)
  /\ readOnly (countNonDeletedAppUsers fuel appId limit).
Proof.
  split; [|split; [|split; [|split]]].
  - unfold listApps. apply readOnly_tryCatch.
    + apply readOnly_bind; [apply readOnly_query|]. intros r.
      apply readOnly_bind; [apply readOnly_whileLastEvaluatedKey|].
      intros arr. apply readOnly_send.
    + intros e. apply readOnly_bind; [apply readOnly_log|].
      intros _. apply readOnly_send.
  - apply readOnly_get.
  - unfold getAppByAppId. apply readOnly_bind; [apply readOnly_query|].
    intros r. destruct (length (Items r) =? 0); [by apply readOnly_pure|].
    destruct (1 <? length (Items r)); [|by apply readOnly_pure].
    apply readOnly_bind; [apply readOnly_log|].
    intros _. by apply readOnly_pure.
  - unfold listAppUsers. apply readOnly_tryCatch.
    + apply readOnly_bind; [apply readOnly_get|]. intros [app|].
      * destruct (truthyAttribute (app !! "deleted")); [apply readOnly_send|].
        apply readOnly_bind; [apply readOnly_query|]. intros r.
        apply readOnly_bind; [apply readOnly_whileLastEvaluatedKey|].
        intros arr. apply readOnly_send.
      * apply readOnly_send.
    + intros e. apply readOnly_bind; [apply readOnly_log|].
      intros _. apply readOnly_send.
  - unfold countNonDeletedAppUsers.
    apply readOnly_bind; [apply readOnly_query|]. intros r.
    apply readOnly_whileBelowLimit.
Qed.

(** ** Counting does not depend on the size of the pages *)

(** X18. The count is the same however the store cuts the users into
    pages: two stores with the same users table give the same count, for
    any limit, whatever their page sizes. *)
Theorem countNonDeletedAppUsers_page_size fuel appId limit w1 w2 :
  usersTable (store w1) = usersTable (store w2) ->
  length (usersTable (store w1)) <= fuel ->
  fst (countNonDeletedAppUsers fuel appId limit w1)
  = fst (countNonDeletedAppUsers fuel appId limit w2).
Proof.
  intros Heq Hfuel.
  destruct (countNonDeletedAppUsers_run fuel appId limit w1 Hfuel) as (w1' & -> & _).
  rewrite Heq in Hfuel.
  destruct (countNonDeletedAppUsers_run fuel appId limit w2 Hfuel) as (w2' & -> & _).
  cbn [fst]. unfold activeUsers, usersOf. by rewrite Heq.
Qed.

Lemma countNonDeletedAppUsers_page_size_witness :
  fst (countNonDeletedAppUsers 9 "id-1" (Some 5) countWorld)
  = fst (countNonDeletedAppUsers 9 "id-1" (Some 5) (withPageCap 7 countWorld)).
Proof.
  apply countNonDeletedAppUsers_page_size; [reflexivity | vm_compute; lia].
Defined.

(** ** After a delete *)

(** X19. Once a permanent delete has succeeded the application is gone for
    every path: the same permanent delete again is answered 409, a soft
    delete 404, the listing of its users 404, and the lookup by owner and
    name returns nothing. *)
Theorem after_permanent_delete buildUserResult fuel req w :
  fst (permanentDeleteApp req w) = Returned ended ->
  let w' := snd (permanentDeleteApp req w) in
  fst (permanentDeleteApp req w') = Returned conflict
  /\ fst (deleteApp req w') = Returned notFound
  /\ fst (listAppUsers buildUserResult fuel req w') = Returned notFound
  /\ fst (getApp (adminIdOf req) (appNameOf req) w') = Returned None.
Proof.
  intros Hok w'. subst w'.
  destruct (permanentDeleteApp_store req w)
    as [[_ Hne] | (Hsub & (Ha & Hn & Hi) & _ & _ & Hst)]; [done|].
  set (w' := snd (permanentDeleteApp req w)) in *.
  assert (Happ : appAt (store w') (adminIdOf req) (appNameOf req) = None).
  { rewrite Hst. unfold appAt. rewrite readKey_writeKey_table by done.
    apply readKey_writeKey_None. }
  assert (Htomb : is_Some (tombstoneAt (store w') (appIdOf req))).
  { rewrite Hst. unfold tombstoneAt. eexists.
    by apply readKey_writeKey_Some, keyOf_tombstone. }
  split; [|split; [|split]].
  - rewrite (permanentDeleteApp_run req w' Hsub Ha Hn Hi). cbv zeta.
    assert (Store.itemCheck (store w')
              (Put (permanentDeletedAppParams (adminIdOf req) (appNameOf req)
                                              (appIdOf req))) = false) as ->.
    { apply not_true_is_false. intros E.
      apply itemCheck_permanentDeletedApp in E; [|done].
      destruct Htomb as [t Ht]. by rewrite E in Ht. }
    by rewrite andb_false_r.
  - rewrite (deleteApp_not_active req w' Hsub Hn Ha); [done|].
    intros r. by rewrite Happ.
  - rewrite listAppUsers_not_found; [done | done | done |].
    intros r. by rewrite Happ.
  - rewrite getApp_run by done. cbn [fst]. by rewrite Happ.
Qed.

Lemma after_permanent_delete_witness :
  fst (permanentDeleteApp shopRequest retiredShopWorld) = Returned conflict
  /\ fst (deleteApp shopRequest retiredShopWorld) = Returned notFound
  /\ fst (listAppUsers id 0 shopRequest retiredShopWorld) = Returned notFound
  /\ fst (getApp "adm1" "shop" retiredShopWorld) = Returned None.
Proof.
  apply (after_permanent_delete id 0 shopRequest deletedShopWorld). reflexivity.
Defined.

(** X20. Once a soft delete has succeeded (the clock giving a non-empty
    timestamp), the users of the application are no longer listed, the
    answer is 404, while the record is still returned by the lookup by
    owner and name, now carrying the deletion timestamp. *)
Theorem after_soft_delete buildUserResult fuel req w :
  fst (deleteApp req w) = Returned ended -> clock w ≠ "" ->
  let w' := snd (deleteApp req w) in
  fst (listAppUsers buildUserResult fuel req w') = Returned notFound
  /\ exists r, fst (getApp (adminIdOf req) (appNameOf req) w') = Returned (Some r)
               /\ r !! "deleted" = Some (clock w).
Proof.
  intros Hok Hclock w'. subst w'.
  destruct (deleteApp_store req w)
    as [[_ Hne] | (r & Hr & Hd & _ & Ha & Hn & _ & Hst)]; [done|].
  set (w' := snd (deleteApp req w)) in *.
  assert (Happ : appAt (store w') (adminIdOf req) (appNameOf req)
                 = Some (<["deleted" := clock w]> r)).
  { rewrite Hst. unfold appAt.
    apply readKey_writeKey_Some, keyOf_apps_insert_deleted.
    by apply readKey_keyOf in Hr. }
  split.
  - rewrite listAppUsers_not_found; [done | done | done |].
    intros r'. rewrite Happ. intros [= <-].
    exists (clock w). by rewrite lookup_insert_eq.
  - exists (<["deleted" := clock w]> r). rewrite getApp_run by done. cbn [fst].
    rewrite Happ. by rewrite lookup_insert_eq.
Qed.

Lemma after_soft_delete_witness :
  fst (listAppUsers id 0 shopRequest deletedShopWorld) = Returned notFound
  /\ exists r, fst (getApp "adm1" "shop" deletedShopWorld) = Returned (Some r)
               /\ r !! "deleted" = Some sampleClock.
Proof.
  apply (after_soft_delete id 0 shopRequest shopWorld);
    [reflexivity | by vm_compute].
Defined.

(** X21. Deleting an application does not reach its users: after a soft
    delete or a permanent delete, whatever its outcome, the count of the
    users of every application is what it was. *)
Theorem deletes_do_not_cascade fuel req appId limit w :
  length (usersTable (store w)) <= fuel ->
  fst (countNonDeletedAppUsers fuel appId limit (snd (deleteApp req w)))
  = fst (countNonDeletedAppUsers fuel appId limit w)
  /\ fst (countNonDeletedAppUsers fuel appId limit (snd (permanentDeleteApp req w)))
     = fst (countNonDeletedAppUsers fuel appId limit w).
Proof.
  intros Hfuel.
  assert (Hdel : usersTable (store (snd (deleteApp req w))) = usersTable (store w)).
  { destruct (deleteApp_store req w)
      as [[-> _] | (r & _ & _ & _ & _ & _ & _ & ->)]; done. }
  assert (Hperm : usersTable (store (snd (permanentDeleteApp req w)))
                  = usersTable (store w)).
  { destruct (permanentDeleteApp_store req w) as [[-> _] | (_ & _ & _ & _ & ->)]; done. }
  destruct (countNonDeletedAppUsers_run fuel appId limit w Hfuel) as (w0 & -> & _).
  split.
  - destruct (countNonDeletedAppUsers_run fuel appId limit (snd (deleteApp req w)))
      as (w1 & -> & _); [by rewrite Hdel|].
    cbn [fst]. unfold activeUsers, usersOf. by rewrite Hdel.
  - destruct (countNonDeletedAppUsers_run fuel appId limit
                (snd (permanentDeleteApp req w))) as (w1 & -> & _); [by rewrite Hperm|].
    cbn [fst]. unfold activeUsers, usersOf. by rewrite Hperm.
Qed.

Lemma deletes_do_not_cascade_witness :
  fst (countNonDeletedAppUsers 9 "id-1" None
         (snd (permanentDeleteApp shopRequest countWorld)))
  = Returned 6.
Proof.
  destruct (deletes_do_not_cascade 9 shopRequest "id-1" None countWorld) as [_ H];
    [vm_compute; lia|].
  rewrite H. reflexivity.
Defined.

(** ** No exception escapes a handler *)

Lemma neverThrows_tryCatch {A} (m : js A) (h : exn -> js A) :
  (forall e, neverThrows (h e)) -> neverThrows (tryCatch m h).
Proof.
  intros Hh w e. unfold tryCatch.
  destruct (m w) as [[a|e'|] w1]; [done | apply Hh | done].
Qed.

Lemma neverThrows_send st v : neverThrows (send st v).
Proof. done. Qed.

Lemma neverThrows_log_send l msg st v :
  neverThrows (logger.log l msg ;;; send st v).
Proof. done. Qed.

(** X22. The five request handlers always answer: whatever the request and
    the store, [createAppController], [listApps], [deleteApp],
    [permanentDeleteApp] and [listAppUsers] do not end in a throw.  What
    their try blocks raise, the objects thrown by [createApp] and the errors
    of the store, ends as a response.  For [permanentDeleteApp] this rests
    on every error of the store carrying a message: its catch reads
    [e.message.includes] and would itself throw on an exception without
    one.  ([createApp] and [getAppByAppId], which are not handlers, do
    throw.) *)
Theorem handlers_never_throw buildUserResult uuid fuel req :
  neverThrows (createAppController uuid req)
  /\ neverThrows (listApps fuel req)
  /\ neverThrows (deleteApp req)
  /\ neverThrows (permanentDeleteApp req)
  /\ neverThrows (listAppUsers buildUserResult fuel req).
Proof.
  split; [|split; [|split; [|split]]].
  - unfold createAppController.
    destruct (subscriptionLapsed _); [apply neverThrows_send|].
    apply neverThrows_tryCatch. intros e. apply neverThrows_send.
  - unfold listApps. apply neverThrows_tryCatch. intros e.
    apply neverThrows_log_send.
  - unfold deleteApp.
    destruct (subscriptionLapsed _); [apply neverThrows_send|].
    destruct (_ || _); [apply neverThrows_send|].
    apply neverThrows_tryCatch. intros e.
    destruct (bool_decide _); [apply neverThrows_send | apply neverThrows_log_send].
  - unfold permanentDeleteApp.
    destruct (subscriptionLapsed _); [apply neverThrows_send|].
    destruct (_ || _); [apply neverThrows_send|].
    intros w e. unfold tryCatch, bind, ddbClient.transactWrite, ddbClient.write.
    destruct (Store.transactWrite _ _) as [err|db']; [|done].
    cbn [exn_message]. destruct (JsString.includes _ _); done.
  - unfold listAppUsers. apply neverThrows_tryCatch. intros e.
    apply neverThrows_log_send.
Qed.
